(** * The summarization pipeline of [src/model.py]

    A shallow embedding of [code_to_text], [fetch_summary], [null_summary],
    [get_cache] and [get_http_client], and the properties of the
    summarization pipeline proved about them.

    Modelling conventions.
    - A Python [str] is a [string]; its characters are read as code points
      below 256.
    - The [files] dictionary is an association list in insertion order (the
      order in which Python iterates a dict).
    - A raised exception is the [Raise] case of [result]. Only exceptions
      derived from [Exception] are modelled; cancellation and interpreter
      exit, which derive from [BaseException], are not.
    - [cachetools.TTLCache] and [httpx.AsyncClient] are third-party
      libraries. The cache is modelled by its documented behaviour (least
      recently used eviction, per-item time to live); the timer it reads is
      an explicit argument. The transport is modelled by the outcome of
      each [post], which the environment chooses.
    - A coroutine runs without interruption between two suspension points.
      [fetch_summary] suspends once, at [await http_client.post(...)], so it
      is cut into the segment before and the segment after that point.
    - Each operation of the cache reads the timer. The lookup of
      [fetch_summary] is two operations, the membership test
      [prompt in cache] and the read [cache[prompt]], so [fetch_summary]
      takes a timer reading for each. In a batch the two are given the
      one reading of the segment. In [code_to_text] the cache is new and
      the event loop runs the lookup of every task before an answer can be
      stored, so that no lookup gets as far as the read; a batch on a cache
      that holds entries is studied with entries that are unexpired at
      every reading of the run.
    - The calls of [LOGGER] are left out: they change neither what is
      returned nor the cache. *)

From Stdlib Require Import ZArith Ascii String DecimalString.
From stdpp Require Import base list strings.

Local Open Scope string_scope.
Local Open Scope list_scope.

(** ** Exceptions and results *)

Inductive exn : Type :=
  | OpenAIError (msg : string)      (* class OpenAIError(Exception) *)
  | KeyError
  | TypeError
  | IndexError
  | ValueError
  | JSONDecodeError
  | HTTPStatusError
  | TransportError (msg : string).  (* timeout, connection error, ... *)

Inductive result (A : Type) : Type :=
  | Ok (a : A)
  | Raise (e : exn).
Arguments Ok {A} a.
Arguments Raise {A} e.

#[global] Instance result_ret : MRet result := fun _ a => Ok a.

#[global] Instance result_bind : MBind result := fun _ _ k r =>
  match r with
  | Ok a => k a
  | Raise e => Raise e
  end.

(** [try: body except Exception: handler]. *)
Definition try_except {A} (body : result A) (handler : exn -> result A) : result A :=
  match body with
  | Ok a => Ok a
  | Raise e => handler e
  end.

(** ** Strings *)

(** [sub in s] on two strings. *)
Fixpoint str_contains (sub s : string) : bool :=
  String.prefix sub s ||
  match s with
  | EmptyString => false
  | String _ s' => str_contains sub s'
  end.

(** [str.isspace] on one character (code points below 256). *)
Definition isspace (c : ascii) : bool :=
  let n := nat_of_ascii c in
  (((9 <=? n) && (n <=? 13)) || ((28 <=? n) && (n <=? 32))
   || (n =? 133) || (n =? 160))%nat.

(** [s.split()]: the maximal runs of characters that are not whitespace.
    [cur] is the run being read. *)
Fixpoint split_from (cur : string) (s : string) : list string :=
  match s with
  | EmptyString => if String.eqb cur "" then [] else [cur]
  | String c s' =>
      if isspace c
      then (if String.eqb cur "" then split_from "" s'
            else cur :: split_from "" s')
      else split_from (String.append cur (String c "")) s'
  end.

Definition split (s : string) : list string := split_from "" s.

(** [str(n)] for a non-negative integer. *)
Definition str_of_nat (n : nat) : string := NilZero.string_of_uint (Nat.to_uint n).

(** ** JSON values, as [response.json()] returns them *)

#[local] Set Warnings "-register-all".

Inductive json : Type :=
  | JNull
  | JBool (b : bool)
  | JNumber (literal : string)
  | JStr (s : string)
  | JArr (items : list json)
  | JObj (fields : list (string * json)).

(** Lookup in a dict shown as an association list. *)
Fixpoint assoc {V} (k : string) (l : list (string * V)) : option V :=
  match l with
  | [] => None
  | (k', v) :: l' => if String.eqb k k' then Some v else assoc k l'
  end.

Definition is_str (k : string) (j : json) : bool :=
  match j with
  | JStr s => String.eqb k s
  | _ => false
  end.

(** [k in data] for a string [k]. *)
Definition json_contains (k : string) (data : json) : result bool :=
  match data with
  | JObj fields => Ok (bool_decide (is_Some (assoc k fields)))
  | JArr items => Ok (existsb (is_str k) items)
  | JStr s => Ok (str_contains k s)
  | _ => Raise TypeError
  end.

(** [data[k]] for a string [k]. *)
Definition json_getitem (k : string) (data : json) : result json :=
  match data with
  | JObj fields =>
      match assoc k fields with
      | Some v => Ok v
      | None => Raise KeyError
      end
  | _ => Raise TypeError
  end.

(** [data[0]]. *)
Definition json_first (data : json) : result json :=
  match data with
  | JArr (x :: _) => Ok x
  | JArr [] => Raise IndexError
  | JStr (String c _) => Ok (JStr (String c ""))
  | JStr EmptyString => Raise IndexError
  | JObj _ => Raise KeyError
  | _ => Raise TypeError
  end.

(** [len(data)]. *)
Definition json_len (data : json) : result nat :=
  match data with
  | JArr items => Ok (length items)
  | JObj fields => Ok (length fields)
  | JStr s => Ok (String.length s)
  | _ => Raise TypeError
  end.

(** ** The response cache: [cachetools.TTLCache]

    The library's cache keeps its items in least-recently-used order and
    gives each an expiry time. [links] lists the items, least recently used
    first. Every operation that reads the timer takes the reading [now]. *)

Definition time := nat.

Module TTLCache.

Record link : Type := Link { key : string; value : string; expires : time }.

Record t : Type := Make { maxsize : nat; ttl : time; links : list link }.

Definition with_links (c : t) (ls : list link) : t :=
  {| maxsize := maxsize c; ttl := ttl c; links := ls |}.

(** [timer() < link.expires] *)
Definition alive (now : time) (l : link) : bool := (now <? expires l)%nat.

Fixpoint find_link (k : string) (ls : list link) : option link :=
  match ls with
  | [] => None
  | l :: ls' => if String.eqb k (key l) then Some l else find_link k ls'
  end.

Fixpoint remove_link (k : string) (ls : list link) : list link :=
  match ls with
  | [] => []
  | l :: ls' => if String.eqb k (key l) then ls' else l :: remove_link k ls'
  end.

(** [key in cache]: present and not expired. Changes nothing. *)
Definition contains (c : t) (now : time) (k : string) : bool :=
  match find_link k (links c) with
  | Some l => alive now l
  | None => false
  end.

(** [cache[key]]: the item becomes the most recently used; an expired or
    absent key raises [KeyError]. *)
Definition getitem (c : t) (now : time) (k : string) : result string * t :=
  match find_link k (links c) with
  | Some l =>
      let c' := with_links c (remove_link k (links c) ++ [l]) in
      if alive now l then (Ok (value l), c') else (Raise KeyError, c')
  | None => (Raise KeyError, c)
  end.

(** [expire(time)]: drop the expired items. *)
Definition expire (c : t) (now : time) : t :=
  with_links c (filter (fun l => alive now l = true) (links c)).

(** [while currsize + 1 > maxsize: popitem()], least recently used first. *)
Fixpoint evict (maxsize : nat) (ls : list link) : list link :=
  match ls with
  | [] => []
  | _ :: ls' => if (maxsize <? length ls + 1)%nat then evict maxsize ls' else ls
  end.

(** [cache[key] = value]: expired items are dropped first; an item of size
    1 that cannot fit raises [ValueError]; a new key evicts least recently
    used items while the cache is full; the item is stored as the most
    recently used, expiring at [now + ttl]. *)
Definition setitem (c : t) (now : time) (k v : string) : result unit * t :=
  let c1 := expire c now in
  if (maxsize c <? 1)%nat then (Raise ValueError, c1)
  else
    let new := Link k v (now + ttl c) in
    match find_link k (links c1) with
    | Some _ => (Ok tt, with_links c1 (remove_link k (links c1) ++ [new]))
    | None => (Ok tt, with_links c1 (evict (maxsize c) (links c1) ++ [new]))
    end.

End TTLCache.

(** ** Constants of the module *)

Definition ENGINE : string := "text-davinci-003".
Definition MAX_TOKENS : nat := 4096.
Definition TOKENS : nat := 500.
Definition TEMPERATURE : string := "0.7".

(** The text that stands for a summary that could not be fetched. *)
Definition fallback : string := "Error generating file summary.".

(** [get_cache()] *)
Definition get_cache : TTLCache.t :=
  {| TTLCache.maxsize := 500; TTLCache.ttl := 600; TTLCache.links := [] |}.

(** ** The transport: requests, responses and what a [post] can do *)

Record request : Type := Request {
  url : string;
  prompt_field : string;
  temperature : string;
  max_tokens : nat;
  top_p : nat;
  frequency_penalty : string;
  presence_penalty : string;
  authorization : string
}.

Record response : Type := Response {
  status_code : Z;
  text : string;
  json_payload : result json   (* what [response.json()] does *)
}.

Inductive post_outcome : Type :=
  | Responds (r : response)
  | Fails (e : exn).

(** [response.is_success]: the status is one of the success family, 200
    to 299. *)
Definition is_success (status : Z) : bool :=
  ((200 <=? status) && (status <? 300))%Z.

(** [response.raise_for_status()]: raises unless the status is a success
    status. *)
Definition raise_for_status (r : response) : result unit :=
  if is_success (status_code r) then Ok tt else Raise HTTPStatusError.

(** The transports of the process and the requests sent so far. A
    transport is released when it is closed, which removes it from
    [open_clients]. *)
Record world : Type := World {
  next_client : nat;
  open_clients : list nat;
  sent : list (nat * request)   (* transport, request; oldest first *)
}.

(** [get_http_client()] *)
Definition get_http_client (w : world) : nat * world :=
  (next_client w,
   {| next_client := S (next_client w);
      open_clients := next_client w :: open_clients w;
      sent := sent w |}).

(** [await http_client.aclose()], the way the library releases a
    transport. Nothing in [src/model.py] calls it. *)
Definition aclose (client : nat) (w : world) : world :=
  {| next_client := next_client w;
     open_clients := filter (λ c, c ≠ client) (open_clients w);
     sent := sent w |}.

Definition record_post (client : nat) (req : request) (w : world) : world :=
  {| next_client := next_client w;
     open_clients := open_clients w;
     sent := sent w ++ [(client, req)] |}.

(** ** Tasks *)

(** What a coroutine has done when it stops running: returned (or raised),
    or suspended in [await http_client.post(...)]. *)
Inductive suspension (A : Type) : Type :=
  | Returned (r : result A)
  | AwaitPost (req : request).
Arguments Returned {A} r.
Arguments AwaitPost {A} req.

(** A task made by [asyncio.create_task]. *)
Inductive task : Type :=
  | TNull (file summary : string)    (* null_summary(file, summary), not started *)
  | TFetch (file prompt : string)    (* fetch_summary(file, prompt, ...), not started *)
  | TAwait (file prompt : string)    (* fetch_summary suspended in its post *)
  | TDone (r : result (string * string)).

(** What runs a batch: the answer of the transport to the post of each task,
    and the timer reading at each segment that is run. *)
Record environment : Type := Environment {
  reply : nat -> request -> post_outcome;
  clock : nat -> time
}.

(** The state of one invocation while its tasks run. *)
Record run_state : Type := RunState {
  rs_world : world;
  rs_cache : TTLCache.t;
  rs_tasks : list task;
  rs_ticks : nat   (* segments run so far *)
}.

Section Pipeline.

(** [utils.format_sentence], [str.format] with one positional argument,
    and [os.getenv('OPENAI_API_KEY')]. *)
Variable format_sentence : json -> result string.
Variable format : string -> string -> result string.
Variable api_key : option string.

(** The request of [fetch_summary]. *)
Definition completion_request (prompt : string) : request :=
  {| url := "https://api.openai.com/v1/engines/" +:+ ENGINE +:+ "/completions";
     prompt_field := prompt;
     temperature := TEMPERATURE;
     max_tokens := TOKENS;
     top_p := 1;
     frequency_penalty := "0.0";
     presence_penalty := "0.0";
     authorization := "Bearer " +:+ default "None" api_key |}.

(** [null_summary] *)
Definition null_summary (file summary : string) : result (string * string) :=
  Ok (file, summary).

(** [fetch_summary] up to its suspension point: the cache lookup. The
    test [prompt in cache] reads the timer ([now]); when it holds, the read
    [cache[prompt]] reads the timer again ([now']). The lookup stands
    before the [try]: what [cache[prompt]] raises leaves [fetch_summary]. *)
Definition fetch_summary_start (file prompt : string)
    (cache : TTLCache.t) (now now' : time)
  : suspension (string * string) * TTLCache.t :=
  if TTLCache.contains cache now prompt then
    let '(v, cache') := TTLCache.getitem cache now' prompt in
    (Returned (summary ← v; Ok (file, summary)), cache')
  else
    (AwaitPost (completion_request prompt), cache).

(** [data["choices"][0]["text"]], after the test on [choices]. *)
Definition first_choice_text (data : json) : result json :=
  present ← json_contains "choices" data;
  empty ← (if negb present then Ok true
           else choices ← json_getitem "choices" data;
                n ← json_len choices;
                Ok (n =? 0)%nat);
  if (empty : bool) then Raise (OpenAIError "OpenAI response missing 'choices' field.")
  else
    choices ← json_getitem "choices" data;
    choice ← json_first choices;
    json_getitem "text" choice.

(** From [response.raise_for_status()] to [format_sentence(summary)]:
    the summary that a response with status 200 carries. *)
Definition parse_summary (response : response) : result string :=
  _ ← raise_for_status response;
  data ← json_payload response;
  summary ← first_choice_text data;
  format_sentence summary.

(** The body of the [try] of [fetch_summary], from the outcome of the
    post on. *)
Definition fetch_summary_try (file prompt : string) (o : post_outcome)
    (cache : TTLCache.t) (now : time)
  : result (string * string) * TTLCache.t :=
  match o with
  | Fails e => (Raise e, cache)
  | Responds response =>
      if negb (status_code response =? 200)%Z then (Ok (file, fallback), cache)
      else
        match parse_summary response with
        | Raise e => (Raise e, cache)
        | Ok summary =>
            let '(stored, cache') := TTLCache.setitem cache now prompt summary in
            (_ ← stored; Ok (file, summary), cache')
        end
  end.

(** [fetch_summary] from its suspension point on: the [try] with its
    handler. *)
Definition fetch_summary_resume (file prompt : string) (o : post_outcome)
    (cache : TTLCache.t) (now : time)
  : result (string * string) * TTLCache.t :=
  let '(body, cache') := fetch_summary_try file prompt o cache now in
  (try_except body (fun _ => Ok (file, fallback)), cache').

(** One call of [fetch_summary] from start to end. [transport] answers
    the post, [others] is what the other tasks do to the shared cache
    while this one is suspended. [t0] and [t0'] are the timer readings of
    the lookup (the test, then the read), [t1] is the reading of the
    write. The third component lists the requests sent. *)
Definition fetch_summary (file prompt : string)
    (transport : request -> post_outcome) (others : TTLCache.t -> TTLCache.t)
    (cache : TTLCache.t) (t0 t0' t1 : time)
  : result (string * string) * TTLCache.t * list request :=
  match fetch_summary_start file prompt cache t0 t0' with
  | (Returned r, cache') => (r, cache', [])
  | (AwaitPost req, cache') =>
      let '(r, cache'') :=
        fetch_summary_resume file prompt (transport req) (others cache') t1 in
      (r, cache'', [req])
  end.

(** *** The orchestrator *)

(** [any(fn in str(path) for fn in ignore_files)] *)
Definition ignored (ignore_files : list string) (path : string) : bool :=
  existsb (fun fn => str_contains fn path) ignore_files.

Definition err : string := "Prompt exceeds max token limit: ".

(** The task that the loop of [code_to_text] makes for one file that is
    not skipped. *)
Definition make_task (path prompt_code : string) : task :=
  let prompt_len := length (split prompt_code) in
  if (MAX_TOKENS <? prompt_len)%nat
  then TNull path (err +:+ str_of_nat prompt_len)
  else TFetch path prompt_code.

(** The loop of [code_to_text] over [files.items()]: the tasks it makes.
    A failure of [prompt.format] leaves the loop and the function. *)
Fixpoint create_tasks (ignore_files : list string)
    (files : list (string * string)) (prompt : string) : result (list task) :=
  match files with
  | [] => Ok []
  | (path, contents) :: files' =>
      if ignored ignore_files path then create_tasks ignore_files files' prompt
      else
        prompt_code ← format prompt contents;
        tasks ← create_tasks ignore_files files' prompt;
        Ok (make_task path prompt_code :: tasks)
  end.

(** The tasks that the loop has made when it ends or when [prompt.format]
    fails. *)
Fixpoint created_tasks (ignore_files : list string)
    (files : list (string * string)) (prompt : string) : list task :=
  match files with
  | [] => []
  | (path, contents) :: files' =>
      if ignored ignore_files path then created_tasks ignore_files files' prompt
      else
        match format prompt contents with
        | Ok prompt_code =>
            make_task path prompt_code :: created_tasks ignore_files files' prompt
        | Raise _ => []
        end
  end.

Definition tick (s : run_state) : run_state :=
  {| rs_world := rs_world s; rs_cache := rs_cache s;
     rs_tasks := rs_tasks s; rs_ticks := S (rs_ticks s) |}.

Definition set_task (i : nat) (t : task) (s : run_state) : run_state :=
  {| rs_world := rs_world s; rs_cache := rs_cache s;
     rs_tasks := <[i:=t]> (rs_tasks s); rs_ticks := rs_ticks s |}.

Definition set_cache (c : TTLCache.t) (s : run_state) : run_state :=
  {| rs_world := rs_world s; rs_cache := c;
     rs_tasks := rs_tasks s; rs_ticks := rs_ticks s |}.

Definition set_world (w : world) (s : run_state) : run_state :=
  {| rs_world := w; rs_cache := rs_cache s;
     rs_tasks := rs_tasks s; rs_ticks := rs_ticks s |}.

(** The first segment of a fetch task: the lookup, and the post sent
    through the transport [client] when the lookup misses. The test and
    the read of the lookup are given the one reading of the segment. *)
Definition start_task (env : environment) (client : nat)
    (file prompt : string) (s : run_state)
  : suspension (string * string) * run_state :=
  match fetch_summary_start file prompt (rs_cache s)
          (clock env (rs_ticks s)) (clock env (rs_ticks s)) with
  | (Returned r, cache') => (Returned r, tick (set_cache cache' s))
  | (AwaitPost req, cache') =>
      (AwaitPost req,
       tick (set_world (record_post client req (rs_world s)) (set_cache cache' s)))
  end.

(** The second segment of the [i]-th task, a fetch task: it is woken up
    with the answer to its post. *)
Definition resume_task (env : environment) (i : nat)
    (file prompt : string) (s : run_state)
  : result (string * string) * run_state :=
  let '(r, cache') :=
    fetch_summary_resume file prompt
      (reply env i (completion_request prompt))
      (rs_cache s) (clock env (rs_ticks s)) in
  (r, tick (set_cache cache' s)).

(** The event loop runs the next segment of task [t], the [i]-th of the
    batch. *)
Definition run_segment (env : environment) (client i : nat) (t : task)
    (s : run_state) : task * run_state :=
  match t with
  | TNull file summary => (TDone (null_summary file summary), tick s)
  | TFetch file prompt =>
      match start_task env client file prompt s with
      | (Returned r, s') => (TDone r, s')
      | (AwaitPost _, s') => (TAwait file prompt, s')
      end
  | TAwait file prompt =>
      let '(r, s') := resume_task env i file prompt s in (TDone r, s')
  | TDone r => (TDone r, s)
  end.

(** One step of the schedule: the next segment of the [i]-th task. *)
Definition advance (env : environment) (client : nat)
    (s : run_state) (i : nat) : run_state :=
  match rs_tasks s !! i with
  | None => s
  | Some t => let '(t', s') := run_segment env client i t s in set_task i t' s'
  end.

(** Task [t], the [i]-th of the batch, is run to its end and gives its
    result. *)
Definition complete (env : environment) (client i : nat) (t : task)
    (s : run_state) : result (string * string) * run_state :=
  match t with
  | TNull file summary => (null_summary file summary, tick s)
  | TFetch file prompt =>
      match start_task env client file prompt s with
      | (Returned r, s') => (r, s')
      | (AwaitPost _, s') => resume_task env i file prompt s'
      end
  | TAwait file prompt => resume_task env i file prompt s
  | TDone r => (r, s)
  end.

(** The tasks [ts], numbered from [i], are awaited in order. *)
Fixpoint await_all (env : environment) (client i : nat) (ts : list task)
    (s : run_state) : list (result (string * string)) * run_state :=
  match ts with
  | [] => ([], s)
  | t :: ts' =>
      let '(r, s1) := complete env client i t s in
      let '(rs, s2) := await_all env client (S i) ts' (set_task i (TDone r) s1) in
      (r :: rs, s2)
  end.

(** [await asyncio.gather] on the tasks. The tasks run interleaved: [sched]
    lists the tasks in the order in which the event loop runs their
    segments; the tasks that it leaves unfinished are then run to their
    end in order. The results come in the order of the tasks; a task that
    raised makes [gather] raise. *)
Definition gather (env : environment) (sched : list nat) (client : nat)
    (s : run_state) : result (list (string * string)) * run_state :=
  let s1 := foldl (advance env client) s sched in
  let '(rs, s2) := await_all env client 0 (rs_tasks s1) s1 in
  (mapM id rs, s2).

(** The body of [code_to_text] once the transport and the cache exist.
    When [prompt.format] fails the exception leaves the function before
    [gather] is reached: the tasks made for the files before are pending,
    none has run a segment, and the state is the one at that moment. What
    the event loop does with the pending tasks after the function is left
    is not part of the invocation. *)
Definition code_to_text_from (env : environment) (sched : list nat)
    (http_client : nat) (cache : TTLCache.t)
    (ignore_files : list string) (files : list (string * string))
    (prompt : string) (w : world)
  : result (list (string * string)) * run_state :=
  match create_tasks ignore_files files prompt with
  | Raise e => (Raise e, RunState w cache (created_tasks ignore_files files prompt) 0)
  | Ok tasks => gather env sched http_client (RunState w cache tasks 0)
  end.

(** [code_to_text] *)
Definition code_to_text (env : environment) (sched : list nat)
    (ignore_files : list string) (files : list (string * string))
    (prompt : string) (w : world)
  : result (list (string * string)) * run_state :=
  let '(http_client, w1) := get_http_client w in
  let cache := get_cache in
  code_to_text_from env sched http_client cache ignore_files files prompt w1.

End Pipeline.

Arguments completion_request api_key prompt : assert.

(** ** Notions used in the statements *)

(** The file a task works for, unless the task ended by raising. *)
Definition task_file (t : task) : option string :=
  match t with
  | TNull file _ | TFetch file _ | TAwait file _ => Some file
  | TDone (Ok (file, _)) => Some file
  | TDone (Raise _) => None
  end.

(** The prompt of a fetch task that has not returned yet. *)
Definition task_prompt (t : task) : option string :=
  match t with
  | TFetch _ prompt | TAwait _ prompt => Some prompt
  | _ => None
  end.

(** A task that is waiting for the answer to its post. *)
Definition awaiting (t : task) : bool :=
  match t with
  | TAwait _ _ => true
  | _ => false
  end.

(** The keys of a cache are distinct, as those of any Python mapping. *)
Definition cache_wf (c : TTLCache.t) : Prop :=
  NoDup (TTLCache.key <$> TTLCache.links c).

(** Two caches hold the same items, in whatever order of use. *)
Definition same_items (c c' : TTLCache.t) : Prop :=
  TTLCache.maxsize c' = TTLCache.maxsize c ∧
  TTLCache.ttl c' = TTLCache.ttl c ∧
  TTLCache.links c' ≡ₚ TTLCache.links c.

(** A transport is released once it is no longer among the open ones. *)
Definition released (client : nat) (w : world) : Prop :=
  client ∉ open_clients w.

(** The payload is an object that has no member [choices], or whose member
    [choices] is an empty array. *)
Definition lacks_choices (data : json) : Prop :=
  ∃ fields, data = JObj fields ∧
    (assoc "choices" fields = None ∨ assoc "choices" fields = Some (JArr [])).

(** The payload is an object whose member [choices] is a list that is not
    empty. *)
Definition has_choices_list (data : json) : bool :=
  match data with
  | JObj fields =>
      match assoc "choices" fields with
      | Some (JArr (_ :: _)) => true
      | _ => false
      end
  | _ => false
  end.

(** The summary that a fully successful fetch obtains from the outcome of
    its post: status 200 and a payload from which a summary is read. *)
Definition fetched (format_sentence : json → result string)
    (o : post_outcome) : option string :=
  match o with
  | Responds r =>
      if (status_code r =? 200)%Z then
        match parse_summary format_sentence r with
        | Ok summary => Some summary
        | Raise _ => None
        end
      else None
  | Fails _ => None
  end.

(** [w'] comes from [w] by sending requests through [client], each for a
    prompt that satisfies [P]; no transport is made or closed. *)
Definition sends_only (api_key : option string) (client : nat)
    (P : string → Prop) (w w' : world) : Prop :=
  next_client w' = next_client w ∧
  open_clients w' = open_clients w ∧
  ∃ prompts, Forall P prompts ∧
    sent w' = sent w ++ ((λ p, (client, completion_request api_key p)) <$> prompts).

(** ** Instances for the examples *)

(** A fragment of [str.format] with one argument: text, doubled braces and
    the field [{}], which may occur once. Templates with other fields are
    not used in the examples. *)
Fixpoint format_fields (used : bool) (template arg : string) : result string :=
  match template with
  | EmptyString => Ok EmptyString
  | String c rest =>
      if Ascii.eqb c "{" then
        match rest with
        | String d rest' =>
            if Ascii.eqb d "{" then
              s ← format_fields used rest' arg; Ok (String "{" s)
            else if Ascii.eqb d "}" then
              if used then Raise IndexError
              else s ← format_fields true rest' arg; Ok (arg +:+ s)
            else Raise ValueError
        | EmptyString => Raise ValueError
        end
      else if Ascii.eqb c "}" then
        match rest with
        | String d rest' =>
            if Ascii.eqb d "}" then
              s ← format_fields used rest' arg; Ok (String "}" s)
            else Raise ValueError
        | EmptyString => Raise ValueError
        end
      else s ← format_fields used rest arg; Ok (String c s)
  end.

Definition str_format (template arg : string) : result string :=
  format_fields false template arg.

(** A character that is trimmed: whitespace or a double quote. *)
Definition trimmed (c : ascii) : bool :=
  isspace c || Ascii.eqb c (ascii_of_nat 34).

Fixpoint lstrip (s : string) : string :=
  match s with
  | EmptyString => EmptyString
  | String c s' => if trimmed c then lstrip s' else s
  end.

Fixpoint rstrip (s : string) : string :=
  match s with
  | EmptyString => EmptyString
  | String c s' =>
      let r := rstrip s' in
      if String.eqb r "" && trimmed c then EmptyString else String c r
  end.

(** Modelled from the spec: [utils.format_sentence] is not among the
    sources. The spec says that it trims surrounding whitespace and quoting
    artifacts; here a summary that is not a string makes it raise. It is
    used in the examples only: the properties hold for every
    [format_sentence]. *)
Definition format_sentence_spec (summary : json) : result string :=
  match summary with
  | JStr s => Ok (rstrip (lstrip s))
  | _ => Raise TypeError
  end.

(** Inputs of the examples. *)
Definition ex_key : option string := Some "sk-test".

Definition ex_template : string := "Summarize: {}".

Definition ex_files : list (string * string) :=
  [("src/a.py", "print(1)"); ("docs/readme.md", "hello"); ("src/b.py", "x = 2")].

Definition ex_ignore : list string := ["docs/"].

Definition ex_world : world := {| next_client := 0; open_clients := []; sent := [] |}.

Definition ex_payload : json :=
  JObj [("choices", JArr [JObj [("text", JStr " It prints. ")]])].

Definition ex_response (status : Z) (payload : json) : response :=
  {| status_code := status; text := "body"; json_payload := Ok payload |}.

(** Every post is answered with status 200 and one choice; the timer
    advances by one at each segment. *)
Definition ex_env : environment :=
  {| reply := λ _ _, Responds (ex_response 200 ex_payload); clock := λ n, n |}.

(** The event loop starts both fetch tasks, then wakes them up in turn. *)
Definition ex_sched : list nat := [0; 1; 0; 1].

Definition ex_cache : TTLCache.t :=
  {| TTLCache.maxsize := 500; TTLCache.ttl := 600;
     TTLCache.links := [TTLCache.Link "PROMPT_X" "cached summary" 600;
                        TTLCache.Link "PROMPT_Y" "other summary" 700] |}.

(** A full cache of two items; [PROMPT_X] is the least recently used. *)
Definition ex_small_cache : TTLCache.t :=
  {| TTLCache.maxsize := 2; TTLCache.ttl := 600;
     TTLCache.links := [TTLCache.Link "PROMPT_X" "cached summary" 600;
                        TTLCache.Link "PROMPT_Y" "other summary" 700] |}.

(** [n] words separated by blanks. *)
Fixpoint words (n : nat) : string :=
  match n with
  | O => EmptyString
  | S n' => String "a" (String " " (words n'))
  end.

Definition ex_plain_template : string := "{}".

(** A file of 4097 words beside a small one, and a file of 4096 words. *)
Definition ex_big_files : list (string * string) :=
  [("big.txt", words 4097); ("src/a.py", "print(1)")].

Definition ex_edge_files : list (string * string) := [("edge.txt", words 4096)].

(** As [ex_env], with a run so short that every timer reading is 5. *)
Definition ex_env_fast : environment :=
  {| reply := λ _ _, Responds (ex_response 200 ex_payload); clock := λ _, 5 |}.

(** As [ex_env], but the post of the first task is answered with status
    500. *)
Definition ex_env_one_fails : environment :=
  {| reply := λ i _, if (i =? 0)%nat then Responds (ex_response 500 ex_payload)
                     else Responds (ex_response 200 ex_payload);
     clock := λ n, n |}.

Definition ex_empty_choices : json := JObj [("choices", JArr [])].

(** The payload [{"choices": null}]. *)
Definition ex_null_choices : json := JObj [("choices", JNull)].

(** A response with status 201 whose body is not JSON. *)
Definition ex_created : response :=
  {| status_code := 201; text := "created"; json_payload := Raise JSONDecodeError |}.

(** The second invocation runs later on the same timer. *)
Definition ex_env_later : environment :=
  {| reply := λ _ _, Responds (ex_response 200 ex_payload); clock := λ n, 10 + n |}.

(** Two invocations with the same inputs, one after the other. *)
Definition ex_first_run : result (list (string * string)) * run_state :=
  code_to_text format_sentence_spec str_format ex_key ex_env ex_sched
    ex_ignore ex_files ex_template ex_world.

Definition ex_second_run : result (list (string * string)) * run_state :=
  code_to_text format_sentence_spec str_format ex_key ex_env_later ex_sched
    ex_ignore ex_files ex_template (rs_world ex_first_run.2).

(** A template with an unmatched brace: [str.format] raises [ValueError]. *)
Definition ex_bad_template : string := "Summarize: {".

Definition ex_failed_run : result (list (string * string)) * run_state :=
  code_to_text format_sentence_spec str_format ex_key ex_env ex_sched
    ex_ignore ex_files ex_bad_template ex_world.

(** ** [generate_summary_text] *)

(** [s.lstrip(chars)] and [s.rstrip(chars)], the characters to strip given
    by a test. *)
Fixpoint lstrip_while (p : ascii → bool) (s : string) : string :=
  match s with
  | EmptyString => EmptyString
  | String c s' => if p c then lstrip_while p s' else s
  end.

Fixpoint rstrip_while (p : ascii → bool) (s : string) : string :=
  match s with
  | EmptyString => EmptyString
  | String c s' =>
      let r := rstrip_while p s' in
      if String.eqb r "" && p c then EmptyString else String c r
  end.

Definition is_quote (c : ascii) : bool := Ascii.eqb c (ascii_of_nat 34).

(** [generate_summary_text]. [create] is [openai.Completion.create], called
    with the engine, the prompt, the number of tokens and the temperature;
    it gives the texts of the choices, or raises. Nothing catches what it
    raises, nor the [IndexError] of [choices[0]]. The text is stripped of
    leading whitespace, then of double quotes at both ends. *)
Definition generate_summary_text
    (create : string → string → nat → string → result (list string))
    (prompt : string) : result string :=
  choices ← create ENGINE prompt TOKENS TEMPERATURE;
  generated_text ← match choices with
                   | [] => Raise IndexError
                   | choice :: _ => Ok choice
                   end;
  Ok (rstrip_while is_quote (lstrip_while is_quote (lstrip_while isspace generated_text))).

(** ** More notions used in the statements *)

(** Every character of [s] passes the test [p]. *)
Fixpoint all_chars (p : ascii → bool) (s : string) : bool :=
  match s with
  | EmptyString => true
  | String c s' => p c && all_chars p s'
  end.

Definition first_char (s : string) : option ascii :=
  match s with
  | EmptyString => None
  | String c _ => Some c
  end.

Fixpoint last_char (s : string) : option ascii :=
  match s with
  | EmptyString => None
  | String c EmptyString => Some c
  | String _ s' => last_char s'
  end.

(** The cache holds distinct keys and no more items than its size. *)
Definition cache_ok (c : TTLCache.t) : Prop :=
  cache_wf c ∧ (length (TTLCache.links c) ≤ TTLCache.maxsize c)%nat.

(** A fetch task that has not run yet counts for one request to come. *)
Definition unstarted (t : task) : nat :=
  match t with
  | TFetch _ _ => 1
  | _ => 0
  end.

(** The fetch tasks among [ts] that have not run yet. *)
Fixpoint fetch_count (ts : list task) : nat :=
  match ts with
  | [] => 0
  | t :: ts' => unstarted t + fetch_count ts'
  end.

(** A new task after its first segment, when the cache holds nothing: a
    placeholder task is done, a fetch task waits for its answer. *)
Definition after_start (t : task) : task :=
  match t with
  | TNull file summary => TDone (Ok (file, summary))
  | TFetch file prompt => TAwait file prompt
  | _ => t
  end.

(** The three kinds of text that a result carries: the fallback text, a
    placeholder for a prompt over the budget, or a summary that
    [format_sentence] returned. *)
Definition summary_kind (format_sentence : json → result string)
    (text : string) : Prop :=
  text = fallback ∨
  (∃ n, (MAX_TOKENS < n)%nat ∧ text = err +:+ str_of_nat n) ∨
  (∃ j, format_sentence j = Ok text).

(** ** More inputs of the examples *)

(** The completion endpoint answers with two choices. *)
Definition ex_create (engine prompt : string) (tokens : nat) (temp : string)
  : result (list string) :=
  Ok [String (ascii_of_nat 10) (String (ascii_of_nat 34)
        ("A summary." +:+ String (ascii_of_nat 34) EmptyString));
      "unused"].

(** A payload with a member beside [choices] and two choices. *)
Definition ex_payload_two : json :=
  JObj [("id", JStr "cmpl-1");
        ("choices", JArr [JObj [("index", JNumber "0"); ("text", JStr " First. ")];
                          JObj [("index", JNumber "1"); ("text", JStr " Second. ")]])].

(** Two files with the same contents. *)
Definition ex_twin_files : list (string * string) :=
  [("src/a.py", "print(1)"); ("src/copy_of_a.py", "print(1)")].

(** A template that cannot be rendered, and ignore lists that skip every
    file of [ex_files]. *)
Definition ex_all_ignored : list string := ["src/"; "docs/"].
Definition ex_ignore_everything : list string := [""].

(** * Properties *)

(** Tactics that open the definitions of the pipeline. *)
Ltac open_advance := unfold advance in *.
Ltac open_gather := unfold gather in *.
Ltac open_fetch_summary := unfold fetch_summary in *.
Ltac open_fetch_summary_try := unfold fetch_summary_try in *.
Ltac open_fetch_summary_resume := unfold fetch_summary_resume in *.
Ltac open_code_to_text_from := unfold code_to_text_from in *.
Ltac open_code_to_text := unfold code_to_text in *; simpl in *.

(** Case analysis on membership in a list of pairs that is written out. *)
Ltac elem_cases H :=
  repeat (apply elem_of_cons in H as [H|H]; [injection H as -> ->|]);
  try (by apply elem_of_nil in H).

(** ** The cache *)

Section CacheFacts.

Import TTLCache.

Implicit Types (c : t) (ls : list link) (k : string) (now : time).

Lemma find_link_elem k ls l :
  find_link k ls = Some l → l ∈ ls ∧ key l = k.
Proof.
  induction ls as [|l0 ls IH]; simpl; [done|].
  destruct (String.eqb_spec k (key l0)) as [->|Hne].
  - intros [= ->]. split; [left|done].
  - intros [Hin Hk]%IH. split; [by right|done].
Qed.

Lemma find_link_None k ls :
  find_link k ls = None → k ∉ key <$> ls.
Proof.
  induction ls as [|l0 ls IH]; simpl; [intros _; apply not_elem_of_nil|].
  destruct (String.eqb_spec k (key l0)) as [->|Hne]; [done|].
  intros H%IH. rewrite not_elem_of_cons. done.
Qed.

Lemma find_link_unique k ls l :
  NoDup (key <$> ls) → l ∈ ls → key l = k → find_link k ls = Some l.
Proof.
  induction ls as [|l0 ls IH]; simpl.
  - by intros _ ?%elem_of_nil.
  - rewrite NoDup_cons. intros [Hfresh Hnd] Hin Hk.
    destruct (String.eqb_spec k (key l0)) as [Heq|Hne].
    + apply elem_of_cons in Hin as [->|Hin]; [done|].
      exfalso. apply Hfresh. rewrite <- Heq, <- Hk.
      by apply list_elem_of_fmap_2.
    + apply elem_of_cons in Hin as [->|Hin]; [congruence|]. by apply IH.
Qed.

Lemma find_link_perm k ls ls' :
  NoDup (key <$> ls) → ls ≡ₚ ls' → find_link k ls' = find_link k ls.
Proof.
  intros Hnd Hp.
  assert (Hnd' : NoDup (key <$> ls')) by (by rewrite <- Hp).
  destruct (find_link k ls) as [l|] eqn:Hf.
  - apply find_link_elem in Hf as [Hin Hk].
    apply find_link_unique; [done| |done]. by rewrite <- Hp.
  - destruct (find_link k ls') as [l'|] eqn:Hf'; [|done].
    apply find_link_elem in Hf' as [Hin Hk].
    rewrite <- Hp in Hin.
    by rewrite (find_link_unique k ls l') in Hf.
Qed.

Lemma remove_link_perm k ls l :
  find_link k ls = Some l → remove_link k ls ++ [l] ≡ₚ ls.
Proof.
  induction ls as [|l0 ls IH]; simpl; [done|].
  destruct (String.eqb_spec k (key l0)) as [_|_].
  - intros [= ->]. by rewrite Permutation_app_comm.
  - intros H%IH. simpl. by rewrite H.
Qed.

Lemma remove_link_sublist k ls : remove_link k ls `sublist_of` ls.
Proof.
  induction ls as [|l0 ls IH]; simpl; [done|].
  destruct (String.eqb k (key l0)).
  - by apply sublist_cons.
  - by apply sublist_skip.
Qed.

Lemma evict_sublist m ls : evict m ls `sublist_of` ls.
Proof.
  induction ls as [|l0 ls IH]; [done|].
  cbn [evict]. destruct (m <? length (l0 :: ls) + 1)%nat; [|done].
  by apply sublist_cons.
Qed.

(** A key that [contains] finds moves to the most recently used place
    when [getitem] reads it; [getitem] returns its value if it is still
    unexpired then, and raises [KeyError] if it is not. *)
Lemma contains_getitem c now now' k :
  contains c now k = true →
  ∃ l, find_link k (links c) = Some l ∧
       getitem c now' k =
         (if contains c now' k then Ok (value l) else Raise KeyError,
          with_links c (remove_link k (links c) ++ [l])).
Proof.
  unfold contains, getitem.
  destruct (find_link k (links c)) as [l|]; [|done].
  intros _. exists l. split; [done|]. by destruct (alive now' l).
Qed.

Lemma same_items_refl c : same_items c c.
Proof. by repeat split. Qed.

Lemma same_items_trans c1 c2 c3 :
  same_items c1 c2 → same_items c2 c3 → same_items c1 c3.
Proof.
  intros (?&?&H12) (?&?&H23). repeat split; [congruence..|].
  by rewrite H23, H12.
Qed.

Lemma same_items_touch c k l :
  find_link k (links c) = Some l →
  same_items c (with_links c (remove_link k (links c) ++ [l])).
Proof.
  intros H. repeat split; simpl. by apply remove_link_perm.
Qed.

Lemma same_items_wf c c' : same_items c c' → cache_wf c → cache_wf c'.
Proof. intros (_&_&Hp). unfold cache_wf. by rewrite Hp. Qed.

Lemma same_items_contains c c' now k :
  cache_wf c → same_items c c' → contains c' now k = contains c now k.
Proof.
  intros Hwf (_&_&Hp). unfold contains.
  by rewrite (find_link_perm k (links c) (links c')).
Qed.

(** Writing to a cache that can hold an item appends the new item to
    items that were there. *)
Lemma setitem_stores c now k v :
  (0 < maxsize c)%nat →
  ∃ kept, kept `sublist_of` links c ∧
    setitem c now k v =
      (Ok tt, {| maxsize := maxsize c; ttl := ttl c;
                 links := kept ++ [Link k v (now + ttl c)] |}).
Proof.
  intros Hm. unfold setitem.
  destruct (Nat.ltb_spec (maxsize c) 1) as [?|_]; [lia|].
  set (live := links (expire c now)).
  assert (Hlive : live `sublist_of` links c) by apply sublist_filter.
  destruct (find_link k live).
  - exists (remove_link k live). split; [|done].
    etrans; [apply remove_link_sublist|done].
  - exists (evict (maxsize c) live). split; [|done].
    etrans; [apply evict_sublist|done].
Qed.

End CacheFacts.

(** ** One call of [fetch_summary] *)

Section FetchFacts.

Variable format_sentence : json → result string.
Variable api_key : option string.

Implicit Types (file prompt : string) (cache : TTLCache.t) (now : time).

(** The entry is unexpired at the test and at the read. *)
Lemma fetch_summary_start_hit file prompt cache now now' :
  TTLCache.contains cache now prompt = true →
  TTLCache.contains cache now' prompt = true →
  ∃ l, TTLCache.find_link prompt (TTLCache.links cache) = Some l ∧
    fetch_summary_start api_key file prompt cache now now' =
      (Returned (Ok (file, TTLCache.value l)),
       TTLCache.with_links cache
         (TTLCache.remove_link prompt (TTLCache.links cache) ++ [l])).
Proof.
  intros Hin Hin'. unfold fetch_summary_start. rewrite Hin.
  destruct (contains_getitem _ _ now' _ Hin) as (l & Hf & ->).
  rewrite Hin'. by exists l.
Qed.

(** The entry is unexpired at the test and expired at the read. *)
Lemma fetch_summary_start_expired file prompt cache now now' :
  TTLCache.contains cache now prompt = true →
  TTLCache.contains cache now' prompt = false →
  ∃ l, TTLCache.find_link prompt (TTLCache.links cache) = Some l ∧
    fetch_summary_start api_key file prompt cache now now' =
      (Returned (Raise KeyError),
       TTLCache.with_links cache
         (TTLCache.remove_link prompt (TTLCache.links cache) ++ [l])).
Proof.
  intros Hin Hin'. unfold fetch_summary_start. rewrite Hin.
  destruct (contains_getitem _ _ now' _ Hin) as (l & Hf & ->).
  rewrite Hin'. by exists l.
Qed.

Lemma fetch_summary_start_miss file prompt cache now now' :
  TTLCache.contains cache now prompt = false →
  fetch_summary_start api_key file prompt cache now now' =
    (AwaitPost (completion_request api_key prompt), cache).
Proof. intros Hin. unfold fetch_summary_start. by rewrite Hin. Qed.

(** The first segment returns a pair for its file, raises [KeyError] or
    suspends in the post for its prompt; it keeps the items of the
    cache. *)
Lemma fetch_summary_start_cases file prompt cache now now' :
  ∃ cache', same_items cache cache' ∧
    ((∃ v, TTLCache.contains cache now prompt = true ∧
           TTLCache.contains cache now' prompt = true ∧
           fetch_summary_start api_key file prompt cache now now' =
             (Returned (Ok (file, v)), cache')) ∨
     (TTLCache.contains cache now prompt = true ∧
      TTLCache.contains cache now' prompt = false ∧
      fetch_summary_start api_key file prompt cache now now' =
        (Returned (Raise KeyError), cache')) ∨
     (TTLCache.contains cache now prompt = false ∧ cache' = cache ∧
      fetch_summary_start api_key file prompt cache now now' =
        (AwaitPost (completion_request api_key prompt), cache))).
Proof.
  destruct (TTLCache.contains cache now prompt) eqn:Hin.
  - destruct (TTLCache.contains cache now' prompt) eqn:Hin'.
    + destruct (fetch_summary_start_hit file _ _ _ _ Hin Hin') as (l & Hf & ->).
      eexists. split; [by apply same_items_touch|]. left. by eexists.
    + destruct (fetch_summary_start_expired file _ _ _ _ Hin Hin') as (l & Hf & ->).
      eexists. split; [by apply same_items_touch|]. right; left. done.
  - exists cache. split; [apply same_items_refl|]. right; right.
    by rewrite fetch_summary_start_miss.
Qed.

(** With one reading for the test and the read, the first segment returns
    a pair for its file or suspends. *)
Lemma fetch_summary_start_once file prompt cache now :
  ∃ cache', same_items cache cache' ∧
    ((∃ v, TTLCache.contains cache now prompt = true ∧
           fetch_summary_start api_key file prompt cache now now =
             (Returned (Ok (file, v)), cache')) ∨
     (TTLCache.contains cache now prompt = false ∧ cache' = cache ∧
      fetch_summary_start api_key file prompt cache now now =
        (AwaitPost (completion_request api_key prompt), cache))).
Proof.
  destruct (fetch_summary_start_cases file prompt cache now now)
    as (cache' & Hsame & [(v & Hin & _ & Hst)|[(Hin & Hin' & _)|(Hin & Hc & Hst)]]).
  - exists cache'. split; [done|]. left. by exists v.
  - congruence.
  - exists cache'. split; [done|]. by right.
Qed.

(** What the second segment does when no summary was fetched. *)
Lemma fetch_summary_resume_failed file prompt o cache now :
  fetched format_sentence o = None →
  fetch_summary_resume format_sentence file prompt o cache now =
    (Ok (file, fallback), cache).
Proof.
  unfold fetched, fetch_summary_resume, fetch_summary_try.
  destruct o as [r|e]; [|done].
  destruct (status_code r =? 200)%Z; [|done]. simpl.
  by destruct (parse_summary format_sentence r).
Qed.

(** What the second segment does when a summary was fetched. *)
Lemma fetch_summary_resume_fetched file prompt o cache now summary :
  fetched format_sentence o = Some summary →
  fetch_summary_resume format_sentence file prompt o cache now =
    let '(stored, cache') := TTLCache.setitem cache now prompt summary in
    (try_except (_ ← stored; Ok (file, summary)) (λ _, Ok (file, fallback)), cache').
Proof.
  unfold fetched, fetch_summary_resume, fetch_summary_try.
  destruct o as [r|e]; [|done].
  destruct (status_code r =? 200)%Z; [|done]. simpl.
  destruct (parse_summary format_sentence r); [|done].
  intros [= ->]. by destruct (TTLCache.setitem cache now prompt summary).
Qed.

(** The second segment always returns a pair for its file. *)
Lemma fetch_summary_resume_returns file prompt o cache now :
  ∃ text cache',
    fetch_summary_resume format_sentence file prompt o cache now =
      (Ok (file, text), cache').
Proof.
  destruct (fetched format_sentence o) as [summary|] eqn:Hf.
  - rewrite (fetch_summary_resume_fetched _ _ _ _ _ _ Hf).
    destruct (TTLCache.setitem cache now prompt summary) as [[[]|e] c']; simpl; eauto.
  - rewrite (fetch_summary_resume_failed _ _ _ _ _ Hf). eauto.
Qed.

End FetchFacts.

(** ** Runs of a batch

    A property [Q] of the tasks (which may depend on their place in the
    batch) and a property [Inv] of the world and the cache that every
    segment keeps are kept by [gather]. *)

Section RunFacts.

Variable format_sentence : json → result string.
Variable api_key : option string.
Variable env : environment.
Variable client : nat.

#[local] Abbreviation run_segment := (run_segment format_sentence api_key env client).
#[local] Abbreviation advance := (advance format_sentence api_key env client).
#[local] Abbreviation complete := (complete format_sentence api_key env client).
#[local] Abbreviation await_all := (await_all format_sentence api_key env client).
#[local] Abbreviation gather := (gather format_sentence api_key env).

Lemma run_segment_tasks i t s :
  rs_tasks (run_segment i t s).2 = rs_tasks s.
Proof.
  destruct t as [file summary|file prompt|file prompt|r]; simpl; try done.
  - unfold start_task.
    by destruct (fetch_summary_start _ _ _ _ _ _) as [[r|req] c'].
  - unfold resume_task. by destruct (fetch_summary_resume _ _ _ _ _ _).
Qed.

(** Running a task to its end is running its next two segments. *)
Lemma complete_segments i t s :
  ∃ r, complete i t s = (r, (run_segment i (run_segment i t s).1 (run_segment i t s).2).2) ∧
       (run_segment i (run_segment i t s).1 (run_segment i t s).2).1 = TDone r.
Proof.
  destruct t as [file summary|file prompt|file prompt|r]; simpl; eauto.
  - destruct (start_task _ _ _ _ _ _) as [[r|req] s1]; simpl; eauto.
    destruct (resume_task _ _ _ _ _ _ _) as [r s2]; simpl; eauto.
  - destruct (resume_task _ _ _ _ _ _ _) as [r s2]; simpl; eauto.
Qed.

Variable Q : nat → task → Prop.
Variable Inv : world → TTLCache.t → Prop.

Hypothesis segment_inv : ∀ i t s,
  Q i t → Inv (rs_world s) (rs_cache s) →
  Q i (run_segment i t s).1 ∧
  Inv (rs_world (run_segment i t s).2) (rs_cache (run_segment i t s).2).

#[local] Abbreviation tasks_inv ts := (∀ j t, ts !! j = Some t → Q j t).
#[local] Abbreviation state_inv s :=
  (tasks_inv (rs_tasks s) ∧ Inv (rs_world s) (rs_cache s)).

Lemma advance_inv s i : state_inv s → state_inv (advance s i).
Proof.
  intros [Hts Hinv]. open_advance.
  destruct (rs_tasks s !! i) as [t|] eqn:Hi; [|done].
  destruct (segment_inv i t s (Hts _ _ Hi) Hinv) as [HQ HI].
  pose proof (run_segment_tasks i t s) as Htasks.
  destruct (run_segment i t s) as [t' s']; simpl in *. split; [|done].
  intros j u. rewrite Htasks.
  destruct (decide (i = j)) as [<-|Hne].
  - rewrite list_lookup_insert_eq by (by eapply lookup_lt_Some).
    by intros [= <-].
  - rewrite list_lookup_insert_ne by done. apply Hts.
Qed.

Lemma advance_length s i :
  length (rs_tasks (advance s i)) = length (rs_tasks s).
Proof.
  open_advance. destruct (rs_tasks s !! i) as [t|]; [|done].
  pose proof (run_segment_tasks i t s) as Htasks.
  destruct (run_segment i t s) as [t' s']; simpl in *.
  by rewrite length_insert, Htasks.
Qed.

Lemma schedule_inv sched s :
  state_inv s →
  state_inv (foldl advance s sched) ∧
  length (rs_tasks (foldl advance s sched)) = length (rs_tasks s).
Proof.
  revert s. induction sched as [|i sched IH]; intros s Hs; simpl; [done|].
  destruct (IH (advance s i) (advance_inv s i Hs)) as [? Hlen].
  split; [done|]. by rewrite Hlen, advance_length.
Qed.

Lemma complete_inv i t s :
  Q i t → Inv (rs_world s) (rs_cache s) →
  Q i (TDone (complete i t s).1) ∧
  Inv (rs_world (complete i t s).2) (rs_cache (complete i t s).2).
Proof.
  intros HQ HI. destruct (complete_segments i t s) as (r & -> & Hr). simpl.
  destruct (segment_inv i t s HQ HI) as [HQ1 HI1].
  destruct (segment_inv i _ _ HQ1 HI1) as [HQ2 HI2].
  by rewrite Hr in HQ2.
Qed.

Lemma await_all_inv ts : ∀ i s,
  (∀ j t, ts !! j = Some t → Q (i + j) t) →
  Inv (rs_world s) (rs_cache s) →
  length (await_all i ts s).1 = length ts ∧
  (∀ j r, (await_all i ts s).1 !! j = Some r → Q (i + j) (TDone r)) ∧
  Inv (rs_world (await_all i ts s).2) (rs_cache (await_all i ts s).2).
Proof.
  induction ts as [|t ts IH]; intros i s Hts HI; simpl.
  - split; [done|]. split; [|done]. by intros j r ?.
  - assert (HQ : Q i t).
    { specialize (Hts 0 t eq_refl). by rewrite Nat.add_0_r in Hts. }
    destruct (complete_inv i t s HQ HI) as [HQ1 HI1].
    destruct (complete i t s) as [r s1]; simpl in *.
    destruct (IH (S i) (set_task i (TDone r) s1)) as (Hlen & Hrs & HI2).
    { intros j u Hj. specialize (Hts (S j) u Hj).
      by rewrite Nat.add_succ_r in Hts. }
    { done. }
    destruct (await_all (S i) ts _) as [rs s2]; simpl in *.
    split; [by rewrite Hlen|]. split; [|done].
    intros [|j] r'; simpl.
    + intros [= <-]. by rewrite Nat.add_0_r.
    + intros Hj. rewrite Nat.add_succ_r. by apply Hrs.
Qed.

(** [gather] keeps [Inv], and the result of each task satisfies [Q]. *)
Lemma gather_inv sched s :
  state_inv s →
  ∃ rs, (gather sched client s).1 = mapM id rs ∧
    length rs = length (rs_tasks s) ∧
    (∀ j r, rs !! j = Some r → Q j (TDone r)) ∧
    Inv (rs_world (gather sched client s).2) (rs_cache (gather sched client s).2).
Proof.
  intros Hs. open_gather.
  destruct (schedule_inv sched s Hs) as [[Hts HI] Hlen].
  destruct (await_all_inv (rs_tasks (foldl advance s sched)) 0 _ Hts HI)
    as (Hlen' & Hrs & HI').
  destruct (await_all 0 _ _) as [rs s2]; simpl in *.
  exists rs. repeat split; [congruence|done..].
Qed.

End RunFacts.

(** ** The segments of a fetch task in a batch *)

Section SegmentFacts.

Variable format_sentence : json → result string.
Variable api_key : option string.
Variable env : environment.
Variable client : nat.

Lemma start_task_cases file prompt s :
  let now := clock env (rs_ticks s) in
  ∃ cache', same_items (rs_cache s) cache' ∧
    ((∃ v, TTLCache.contains (rs_cache s) now prompt = true ∧
           start_task api_key env client file prompt s =
             (Returned (Ok (file, v)), tick (set_cache cache' s))) ∨
     (TTLCache.contains (rs_cache s) now prompt = false ∧ cache' = rs_cache s ∧
      start_task api_key env client file prompt s =
        (AwaitPost (completion_request api_key prompt),
         tick (set_world
                 (record_post client (completion_request api_key prompt) (rs_world s))
                 (set_cache cache' s))))).
Proof.
  intros now. unfold start_task. fold now.
  destruct (fetch_summary_start_once api_key file prompt (rs_cache s) now)
    as (cache' & Hsame & [(v & Hin & Hst)|(Hin & Hc & Hst)]);
    exists cache'; (split; [done|]); rewrite Hst; [left|right]; eauto.
  by subst cache'.
Qed.

Lemma resume_task_returns i file prompt s :
  ∃ text cache',
    resume_task format_sentence api_key env i file prompt s =
      (Ok (file, text), tick (set_cache cache' s)).
Proof.
  unfold resume_task.
  destruct (fetch_summary_resume_returns format_sentence file prompt
              (reply env i (completion_request api_key prompt))
              (rs_cache s) (clock env (rs_ticks s))) as (text & cache' & ->).
  eauto.
Qed.

(** A segment does not change the file of its task, and a task that has
    a file does not raise. *)
Lemma run_segment_file i t s f :
  task_file t = Some f →
  task_file (run_segment format_sentence api_key env client i t s).1 = Some f.
Proof.
  destruct t as [file summary|file prompt|file prompt|r]; simpl; try done.
  - intros [= <-].
    destruct (start_task_cases file prompt s)
      as (c' & _ & [(v & _ & ->)|(_ & _ & ->)]); done.
  - intros [= <-].
    by destruct (resume_task_returns i file prompt s) as (text & c' & ->).
Qed.

(** A segment sends at most the request for the prompt of its task, and
    a new task that waits for an answer keeps its prompt. *)
Lemma run_segment_sends (P : string → Prop) i t s w0 :
  (∀ p, task_prompt t = Some p → P p) →
  sends_only api_key client P w0 (rs_world s) →
  (∀ p, task_prompt (run_segment format_sentence api_key env client i t s).1 = Some p → P p) ∧
  sends_only api_key client P w0
    (rs_world (run_segment format_sentence api_key env client i t s).2).
Proof.
  intros HP Hw.
  destruct t as [file summary|file prompt|file prompt|r]; simpl; try done.
  - destruct (start_task_cases file prompt s)
      as (c' & _ & [(v & _ & ->)|(_ & _ & ->)]); simpl; [done|].
    split; [done|].
    destruct Hw as (Hn & Ho & prompts & HPs & Hsent).
    repeat split; [done..|]. exists (prompts ++ [prompt]). split.
    + apply Forall_app. split; [done|]. apply Forall_singleton. by apply HP.
    + simpl. by rewrite Hsent, fmap_app, (assoc_L (++)).
  - destruct (resume_task_returns i file prompt s) as (text & c' & ->). done.
Qed.

(** With every prompt of the batch in the cache, a segment sends
    nothing. *)
Lemma run_segment_cached (c0 : TTLCache.t) i t s :
  cache_wf c0 →
  awaiting t = false →
  (∀ p, task_prompt t = Some p → ∀ n, TTLCache.contains c0 (clock env n) p = true) →
  same_items c0 (rs_cache s) →
  awaiting (run_segment format_sentence api_key env client i t s).1 = false ∧
  (∀ p, task_prompt (run_segment format_sentence api_key env client i t s).1 = Some p →
        ∀ n, TTLCache.contains c0 (clock env n) p = true) ∧
  rs_world (run_segment format_sentence api_key env client i t s).2 = rs_world s ∧
  same_items c0 (rs_cache (run_segment format_sentence api_key env client i t s).2).
Proof.
  intros Hwf Haw Hlive Hsame.
  destruct t as [file summary|file prompt|file prompt|r]; simpl; try done.
  destruct (start_task_cases file prompt s)
    as (c' & Hc' & [(v & _ & ->)|(Hmiss & _ & _)]); simpl.
  - do 3 (split; [done|]). by eapply same_items_trans.
  - rewrite (same_items_contains c0) in Hmiss by done.
    by rewrite (Hlive prompt eq_refl) in Hmiss.
Qed.

End SegmentFacts.

(** ** The loop and the batch of [code_to_text] *)

Section OrchestratorFacts.

Variable format_sentence : json → result string.
Variable format : string → string → result string.
Variable api_key : option string.

#[local] Abbreviation kept ignore_files files :=
  (filter (λ pf : string * string, ignored ignore_files pf.1 = false) files).

(** The loop makes one task for each file that is not skipped, in the
    order of the files, from the prompt rendered for the file. *)
Lemma create_tasks_spec ignore_files files prompt tasks :
  create_tasks format ignore_files files prompt = Ok tasks →
  Forall2 (λ pf t, ∃ prompt_code,
             format prompt pf.2 = Ok prompt_code ∧ t = make_task pf.1 prompt_code)
          (kept ignore_files files) tasks.
Proof.
  revert tasks. induction files as [|[path contents] files IH]; intros tasks; simpl.
  - intros [= <-]. constructor.
  - rewrite filter_cons. simpl.
    destruct (ignored ignore_files path) eqn:Hig.
    + rewrite decide_False by done. apply IH.
    + rewrite decide_True by done.
      destruct (format prompt contents) as [prompt_code|e] eqn:Hf; [|done]. simpl.
      destruct (create_tasks format ignore_files files prompt) as [tasks'|e]; [|done].
      simpl. intros [= <-]. constructor; [eauto|by apply IH].
Qed.

(** The loop ends without raising when every prompt can be rendered. *)
Lemma create_tasks_total ignore_files files prompt :
  (∀ path contents, (path, contents) ∈ files →
     ignored ignore_files path = false →
     ∃ prompt_code, format prompt contents = Ok prompt_code) →
  ∃ tasks, create_tasks format ignore_files files prompt = Ok tasks.
Proof.
  induction files as [|[path contents] files IH]; intros Hfmt; simpl; [eauto|].
  destruct IH as [tasks Htasks].
  { intros p c Hin. apply Hfmt. by right. }
  destruct (ignored ignore_files path) eqn:Hig; [eauto|].
  destruct (Hfmt path contents) as [prompt_code ->]; [by left|done|].
  rewrite Htasks. simpl. eauto.
Qed.

(** When the loop ends without raising, the tasks it has made are the
    tasks it returns. *)
Lemma created_tasks_all ignore_files files prompt tasks :
  create_tasks format ignore_files files prompt = Ok tasks →
  created_tasks format ignore_files files prompt = tasks.
Proof.
  revert tasks. induction files as [|[path contents] files IH]; intros tasks; simpl.
  - by intros [= <-].
  - destruct (ignored ignore_files path); [apply IH|].
    destruct (format prompt contents) as [prompt_code|e]; [|done]. simpl.
    destruct (create_tasks format ignore_files files prompt) as [tasks'|e]; [|done].
    simpl. intros [= <-]. f_equal. by apply IH.
Qed.

(** The tasks made before a failure of [prompt.format] have not run. *)
Lemma created_tasks_pending ignore_files files prompt :
  Forall (λ t, ∃ path prompt_code, t = make_task path prompt_code)
    (created_tasks format ignore_files files prompt).
Proof.
  induction files as [|[path contents] files IH]; simpl; [constructor|].
  destruct (ignored ignore_files path); [done|].
  destruct (format prompt contents) as [prompt_code|e]; [|constructor].
  constructor; [eauto|done].
Qed.

Lemma make_task_file path prompt_code :
  task_file (make_task path prompt_code) = Some path.
Proof. unfold make_task. by destruct (_ <? _)%nat. Qed.

Lemma make_task_prompt path prompt_code p :
  task_prompt (make_task path prompt_code) = Some p →
  p = prompt_code ∧ (length (split prompt_code) ≤ MAX_TOKENS)%nat.
Proof.
  unfold make_task.
  destruct (Nat.ltb_spec MAX_TOKENS (length (split prompt_code))); simpl; [done|].
  by intros [= <-].
Qed.

Lemma make_task_awaiting path prompt_code :
  awaiting (make_task path prompt_code) = false.
Proof. unfold make_task. by destruct (_ <? _)%nat. Qed.

(** Results that all carry a file make [gather] return them. *)
Lemma collect_results (rs : list (result (string * string))) : ∀ fs,
  length rs = length fs →
  (∀ j r, rs !! j = Some r → ∃ f, fs !! j = Some f ∧ task_file (TDone r) = Some f) →
  ∃ results, mapM id rs = Ok results ∧ results.*1 = fs.
Proof.
  induction rs as [|r rs IH]; intros [|f fs] Hlen Hrs; simpl in *; try done.
  - by exists [].
  - destruct (Hrs 0 r eq_refl) as (f' & [= <-] & Hf).
    destruct r as [[file text]|e]; [|done]. simpl in Hf. injection Hf as ->.
    destruct (IH fs) as (results & -> & <-); [lia| |].
    { intros j r' Hj. apply (Hrs (S j) r' Hj). }
    by exists ((f, text) :: results).
Qed.

(** A batch whose tasks all carry a file returns one pair for each, in
    the order of the tasks. *)
Lemma gather_returns env sched client s fs :
  Forall2 (λ f t, task_file t = Some f) fs (rs_tasks s) →
  ∃ results,
    (gather format_sentence api_key env sched client s).1 = Ok results ∧
    results.*1 = fs.
Proof.
  intros Hfs.
  destruct (gather_inv format_sentence api_key env client
              (λ j t, ∃ f, fs !! j = Some f ∧ task_file t = Some f)
              (λ _ _, True)) with (sched := sched) (s := s)
    as (rs & -> & Hlen & Hrs & _).
  - intros i t s' (f & Hf & Ht) _. split; [|done].
    exists f. split; [done|]. by apply run_segment_file.
  - split; [|done]. intros j t Hj.
    destruct (Forall2_lookup_r _ _ _ _ _ Hfs Hj) as (f & Hf & Ht). eauto.
  - apply collect_results; [|done].
    rewrite Hlen. symmetry. by eapply Forall2_length.
Qed.

End OrchestratorFacts.

(** ** Whole invocations *)

Section InvocationFacts.

Variable format_sentence : json → result string.
Variable format : string → string → result string.
Variable api_key : option string.

#[local] Abbreviation kept ignore_files files :=
  (filter (λ pf : string * string, ignored ignore_files pf.1 = false) files).
#[local] Abbreviation code_to_text_from :=
  (code_to_text_from format_sentence format api_key).
#[local] Abbreviation within_budget :=
  (λ p : string, (length (split p) ≤ MAX_TOKENS)%nat).

Lemma create_tasks_files ignore_files files prompt tasks :
  create_tasks format ignore_files files prompt = Ok tasks →
  Forall2 (λ f t, task_file t = Some f) (kept ignore_files files).*1 tasks.
Proof.
  intros H. apply (create_tasks_spec format) in H. apply Forall2_fmap_l.
  eapply Forall2_impl; [done|]. simpl.
  intros [path contents] t (pc & _ & ->). apply make_task_file.
Qed.

(** The invocation returns one pair for each file that is not skipped,
    or raises what rendering a prompt raised. *)
Lemma code_to_text_from_result env sched client cache ignore_files files prompt w :
  match (code_to_text_from env sched client cache ignore_files files prompt w).1 with
  | Ok results => results.*1 = (kept ignore_files files).*1
  | Raise e => create_tasks format ignore_files files prompt = Raise e
  end.
Proof.
  open_code_to_text_from.
  destruct (create_tasks format ignore_files files prompt) as [tasks|e] eqn:Hct; [|done].
  destruct (gather_returns format_sentence api_key env sched client
              (RunState w cache tasks 0) (kept ignore_files files).*1)
    as (results & -> & Hfiles); [|done].
  by apply (create_tasks_files ignore_files files prompt).
Qed.

(** The requests that an invocation sends go through its transport and
    carry prompts within the token budget; it makes and closes no
    transport. *)
Lemma code_to_text_from_sends env sched client cache ignore_files files prompt w :
  sends_only api_key client within_budget w
    (rs_world (code_to_text_from env sched client cache ignore_files files prompt w).2).
Proof.
  assert (Hrefl : sends_only api_key client within_budget w w).
  { repeat split. exists []. split; [constructor|]. simpl. by rewrite app_nil_r. }
  open_code_to_text_from.
  destruct (create_tasks format ignore_files files prompt) as [tasks|e] eqn:Hct; [|done].
  destruct (gather_inv format_sentence api_key env client
              (λ _ t, ∀ p, task_prompt t = Some p → within_budget p)
              (λ w' _, sends_only api_key client within_budget w w'))
    with (sched := sched) (s := RunState w cache tasks 0) as (_ & _ & _ & _ & H);
    [| |done].
  - intros i t s HP Hw. by apply run_segment_sends.
  - split; [|done]. simpl. intros j t Hj p Hp.
    apply (create_tasks_spec format) in Hct.
    destruct (Forall2_lookup_r _ _ _ _ _ Hct Hj) as ([path contents] & _ & pc & _ & ->).
    by apply make_task_prompt in Hp as [-> ?].
Qed.

Lemma mapM_id_Ok {A} (rs : list (result A)) results :
  mapM id rs = Ok results → rs = Ok <$> results.
Proof.
  revert results. induction rs as [|[a|e] rs IH]; intros results; simpl.
  - by intros [= <-].
  - destruct (mapM id rs) as [results'|e]; simpl; [|done].
    intros [= <-]. simpl. f_equal. by apply IH.
  - done.
Qed.

(** The result of a placeholder task is its placeholder. *)
Lemma gather_placeholder env sched client s results j file summary :
  rs_tasks s !! j = Some (TNull file summary) →
  (gather format_sentence api_key env sched client s).1 = Ok results →
  results !! j = Some (file, summary).
Proof.
  intros Hj.
  destruct (gather_inv format_sentence api_key env client
              (λ i t, rs_tasks s !! i = Some (TNull file summary) →
                      t = TNull file summary ∨ t = TDone (Ok (file, summary)))
              (λ _ _, True)) with (sched := sched) (s := s)
    as (rs & -> & Hlen & Hrs & _).
  - intros i t s' Ht _. split; [|done]. intros Hi.
    destruct (Ht Hi) as [->| ->]; simpl; by right.
  - split; [|done]. intros i t Hi Hi'. left. congruence.
  - intros Hok%mapM_id_Ok. subst rs.
    rewrite length_fmap in Hlen.
    destruct (lookup_lt_is_Some_2 results j) as [r Hr].
    { rewrite Hlen. by eapply lookup_lt_Some. }
    destruct (Hrs j (Ok r)) as [?|[= ->]]; [|done..].
    by rewrite list_lookup_fmap, Hr.
Qed.

(** With a live entry for every prompt within the budget the invocation
    sends nothing and keeps the items of the cache. *)
Lemma code_to_text_from_cached env sched client cache ignore_files files prompt w :
  cache_wf cache →
  (∀ path contents prompt_code,
     (path, contents) ∈ files → ignored ignore_files path = false →
     format prompt contents = Ok prompt_code →
     (length (split prompt_code) ≤ MAX_TOKENS)%nat →
     ∀ n, TTLCache.contains cache (clock env n) prompt_code = true) →
  rs_world (code_to_text_from env sched client cache ignore_files files prompt w).2 = w ∧
  same_items cache
    (rs_cache (code_to_text_from env sched client cache ignore_files files prompt w).2).
Proof.
  intros Hwf Hlive. open_code_to_text_from.
  destruct (create_tasks format ignore_files files prompt) as [tasks|e] eqn:Hct.
  2:{ split; [done|apply same_items_refl]. }
  destruct (gather_inv format_sentence api_key env client
              (λ _ t, awaiting t = false ∧
                      ∀ p, task_prompt t = Some p →
                           ∀ n, TTLCache.contains cache (clock env n) p = true)
              (λ w' c', w' = w ∧ same_items cache c'))
    with (sched := sched) (s := RunState w cache tasks 0) as (_ & _ & _ & _ & H);
    [| |done].
  - intros i t s [Haw HP] [Hw Hc].
    destruct (run_segment_cached format_sentence api_key env client cache i t s)
      as (? & ? & ? & ?); [done..|].
    split; [done|]. split; [congruence|done].
  - split; [|split; [done|apply same_items_refl]]. simpl. intros j t Hj.
    apply (create_tasks_spec format) in Hct.
    destruct (Forall2_lookup_r _ _ _ _ _ Hct Hj)
      as ([path contents] & Hin & pc & Hf & ->).
    split; [apply make_task_awaiting|]. intros p [-> Hb]%make_task_prompt.
    apply list_elem_of_lookup_2, list_elem_of_filter in Hin as [Hig Hin].
    by eapply Hlive.
Qed.

End InvocationFacts.

(** ** Payloads without a list of choices *)

(** Whatever the payload is, unless it is an object whose member
    [choices] is a list that is not empty, no summary is read from it: the
    test on [choices] raises [OpenAIError], or the test or the read that
    follows it raises [TypeError] or [KeyError]. *)
Lemma first_choice_text_raises data :
  has_choices_list data = false →
  ∃ e, first_choice_text data = Raise e ∧
       (e = OpenAIError "OpenAI response missing 'choices' field."
        ∨ e = TypeError ∨ e = KeyError).
Proof.
  intros Hno. unfold first_choice_text.
  destruct data as [|b|n|s|items|fields]; simpl; eauto.
  - destruct (str_contains "choices" s); simpl; eauto.
  - destruct (existsb (is_str "choices") items); simpl; eauto.
  - simpl in Hno.
    destruct (assoc "choices" fields) as [v|] eqn:Hv; simpl.
    2:{ eauto. }
    destruct v as [|b|n|s|items|fields']; simpl; eauto.
    + destruct s; simpl; eauto.
    + destruct items as [|x xs]; simpl; eauto. done.
    + destruct fields'; simpl; eauto.
Qed.

(** An object that has no member [choices], or whose member [choices] is
    an empty list, makes the test on [choices] raise [OpenAIError]. *)
Lemma first_choice_text_missing data :
  lacks_choices data →
  first_choice_text data =
    Raise (OpenAIError "OpenAI response missing 'choices' field.").
Proof.
  intros (fields & -> & Hch). unfold first_choice_text. simpl.
  by destruct Hch as [-> | ->].
Qed.

Lemma status_200_is_success r : status_code r = 200%Z → raise_for_status r = Ok tt.
Proof. unfold raise_for_status. by intros ->. Qed.

(** ** The transport *)

(** Closing a transport releases it, and leaves the others as they were. *)
Lemma aclose_released client w : released client (aclose client w).
Proof.
  unfold released, aclose. simpl. rewrite list_elem_of_filter.
  intros [Hne _]. by apply Hne.
Qed.

Lemma aclose_others client c w :
  c ≠ client → c ∈ open_clients (aclose client w) ↔ c ∈ open_clients w.
Proof.
  intros Hne. unfold aclose. simpl. rewrite list_elem_of_filter.
  split; [by intros [_ ?]|by intros ?].
Qed.

(** * The claims *)

Section Claims.

Variable format_sentence : json → result string.
Variable format : string → string → result string.
Variable api_key : option string.

#[local] Abbreviation fetch_summary := (fetch_summary format_sentence api_key).
#[local] Abbreviation fetch_summary_try := (fetch_summary_try format_sentence).
#[local] Abbreviation fetch_summary_resume := (fetch_summary_resume format_sentence).
#[local] Abbreviation code_to_text := (code_to_text format_sentence format api_key).
#[local] Abbreviation code_to_text_from := (code_to_text_from format_sentence format api_key).

(** C4. The claim fails at a cache in which the prompt is present. The
    cache holds the summary of [PROMPT_X] in an entry that expires at time
    600. The test [prompt in cache] reads the timer at 599 and holds; the
    read [cache[prompt]] reads the timer at 600, finds the entry expired
    and raises [KeyError]. The lookup stands before the [try], so the
    exception leaves [fetch_summary]: the cached summary is not returned.
    No request is sent, whatever the transport would answer. *)
Theorem cache_hit_lost_when_entry_expires file transport others t1 :
  TTLCache.contains ex_cache 599 "PROMPT_X" = true ∧
  TTLCache.find_link "PROMPT_X" (TTLCache.links ex_cache) =
    Some (TTLCache.Link "PROMPT_X" "cached summary" 600) ∧
  (fetch_summary_start api_key file "PROMPT_X" ex_cache 599 600).1 =
    Returned (Raise KeyError) ∧
  fetch_summary file "PROMPT_X" transport others ex_cache 599 600 t1 =
    (Raise KeyError,
     TTLCache.with_links ex_cache
       [TTLCache.Link "PROMPT_Y" "other summary" 700;
        TTLCache.Link "PROMPT_X" "cached summary" 600],
     []).
Proof. by repeat split. Qed.

(** C5, amended. For a response with a success status (200 to 299)
    whose parsed payload holds no list of choices that is not empty, the
    result of [fetch_summary] is the path with the fallback text, the same
    as after a failure of the transport, and the cache is not touched.
    With status 200 the body of the [try] raises and the handler catches
    what it raised: [OpenAIError] when the payload is an object that has
    no member [choices] or an empty list of choices, and otherwise
    [OpenAIError], [TypeError] or [KeyError], as the test on [choices] and
    the read of the first choice make of the payload. With another
    success status the fallback is returned from inside the [try] before
    the payload is read, and nothing is raised. *)
Theorem no_choices_list_gives_fallback file prompt r data cache now :
  is_success (status_code r) = true →
  json_payload r = Ok data →
  has_choices_list data = false →
  fetch_summary_resume file prompt (Responds r) cache now =
    (Ok (file, fallback), cache) ∧
  (∀ e, fetch_summary_resume file prompt (Fails e) cache now =
        fetch_summary_resume file prompt (Responds r) cache now) ∧
  (status_code r = 200%Z →
   ∃ e, fetch_summary_try file prompt (Responds r) cache now = (Raise e, cache) ∧
        (e = OpenAIError "OpenAI response missing 'choices' field."
         ∨ e = TypeError ∨ e = KeyError) ∧
        (lacks_choices data →
         e = OpenAIError "OpenAI response missing 'choices' field.")) ∧
  (status_code r ≠ 200%Z →
   fetch_summary_try file prompt (Responds r) cache now =
     (Ok (file, fallback), cache)).
Proof.
  intros _ Hdata Hno.
  destruct (first_choice_text_raises data Hno) as (e & He & Hkind).
  assert (Htry200 : status_code r = 200%Z →
            fetch_summary_try file prompt (Responds r) cache now = (Raise e, cache)).
  { intros Hst. open_fetch_summary_try. rewrite Hst. simpl.
    unfold parse_summary.
    rewrite (status_200_is_success r Hst), Hdata. simpl. by rewrite He. }
  assert (Htry : status_code r ≠ 200%Z →
            fetch_summary_try file prompt (Responds r) cache now =
              (Ok (file, fallback), cache)).
  { intros Hst%Z.eqb_neq. open_fetch_summary_try. by rewrite Hst. }
  assert (Hres : fetch_summary_resume file prompt (Responds r) cache now =
            (Ok (file, fallback), cache)).
  { open_fetch_summary_resume.
    destruct (decide (status_code r = 200%Z)) as [Hst|Hst].
    - by rewrite (Htry200 Hst).
    - by rewrite (Htry Hst). }
  split; [done|]. split; [intros e'; by rewrite Hres|]. split; [|done].
  intros Hst. exists e. split; [by apply Htry200|]. split; [done|].
  intros Hlacks. rewrite (first_choice_text_missing data Hlacks) in He.
  by injection He as <-.
Qed.

(** C9. For a response whose status is not exactly 200 (201 and 204
    included), [fetch_summary] returns the fallback text from inside the
    [try], before [raise_for_status] and before the body is parsed: the
    result is the same whatever the body is, and the cache is the one
    found when the answer arrived. *)
Theorem non_200_gives_fallback file prompt r transport others cache t0 t0' t1 :
  status_code r ≠ 200%Z →
  fetch_summary_try file prompt (Responds r) cache t1 = (Ok (file, fallback), cache) ∧
  fetch_summary_resume file prompt (Responds r) cache t1 = (Ok (file, fallback), cache) ∧
  (TTLCache.contains cache t0 prompt = false →
   transport (completion_request api_key prompt) = Responds r →
   fetch_summary file prompt transport others cache t0 t0' t1 =
     (Ok (file, fallback), others cache, [completion_request api_key prompt])).
Proof.
  intros Hst%Z.eqb_neq.
  assert (Htry : ∀ c, fetch_summary_try file prompt (Responds r) c t1 =
                      (Ok (file, fallback), c)).
  { intros c. open_fetch_summary_try. by rewrite Hst. }
  assert (Hres : ∀ c, fetch_summary_resume file prompt (Responds r) c t1 =
                      (Ok (file, fallback), c)).
  { intros c. open_fetch_summary_resume. by rewrite Htry. }
  split; [done|]. split; [done|]. intros Hmiss Hr.
  open_fetch_summary.
  by rewrite (fetch_summary_start_miss _ _ _ _ _ _ Hmiss), Hr, Hres.
Qed.

(** C6, amended. A call of [fetch_summary] writes an item to the cache
    only when a summary was fetched (status 200 and a summary read from
    the payload): then the one item (prompt, normalized summary) is
    appended to items that were already there, and the normalized summary
    is returned. On every other outcome of the post (a status other than
    200, a malformed response, any exception) the cache is left exactly as
    it was found, and a lookup that misses changes nothing. A lookup that
    hits keeps the items of the cache, with their values and expiry times,
    and only makes the item read the most recently used one. The cache can
    hold at least one item, as the one [get_cache] makes. *)
Theorem cache_written_only_on_success file prompt o cache now now' :
  (0 < TTLCache.maxsize cache)%nat →
  same_items cache (fetch_summary_start api_key file prompt cache now now').2 ∧
  (TTLCache.contains cache now prompt = false →
   (fetch_summary_start api_key file prompt cache now now').2 = cache) ∧
  match fetched format_sentence o with
  | Some summary =>
      ∃ kept, kept `sublist_of` TTLCache.links cache ∧
        fetch_summary_resume file prompt o cache now =
          (Ok (file, summary),
           {| TTLCache.maxsize := TTLCache.maxsize cache;
              TTLCache.ttl := TTLCache.ttl cache;
              TTLCache.links :=
                kept ++ [TTLCache.Link prompt summary (now + TTLCache.ttl cache)] |})
  | None => fetch_summary_resume file prompt o cache now = (Ok (file, fallback), cache)
  end.
Proof.
  intros Hsize. split; [|split].
  - destruct (fetch_summary_start_cases api_key file prompt cache now now')
      as (c' & Hsame & [(v & _ & _ & ->)|[(_ & _ & ->)|(_ & -> & ->)]]);
      [done..|apply same_items_refl].
  - intros Hmiss. by rewrite fetch_summary_start_miss.
  - destruct (fetched format_sentence o) as [summary|] eqn:Hf.
    + destruct (setitem_stores cache now prompt summary Hsize) as (kept & Hsub & Hset).
      exists kept. split; [done|].
      by rewrite (fetch_summary_resume_fetched _ _ _ _ _ _ _ Hf), Hset.
    + by apply fetch_summary_resume_failed.
Qed.

(** C2. The claim fails: [fetch_summary] raises outward. At the cache
    whose entry for [PROMPT_X] expires at time 600, with the timer read at
    599 by the test [prompt in cache] and at 600 by the read
    [cache[prompt]], the read raises [KeyError] before the [try] is
    entered: no handler catches it. The call returns no pair at all,
    neither the cached summary nor the fallback text, although the
    transport would have answered with a summary; it sends no request. *)
Theorem fetch_summary_raises_outward file others t1 :
  (fetch_summary file "PROMPT_X"
     (λ _, Responds (ex_response 200 ex_payload)) others ex_cache 599 600 t1).1.1 =
    Raise KeyError ∧
  (∀ text,
     (fetch_summary file "PROMPT_X"
        (λ _, Responds (ex_response 200 ex_payload)) others ex_cache 599 600 t1).1.1 ≠
     Ok (file, text)) ∧
  (fetch_summary file "PROMPT_X"
     (λ _, Responds (ex_response 200 ex_payload)) others ex_cache 599 600 t1).2 = [].
Proof. by repeat split. Qed.

#[local] Abbreviation kept ignore_files files :=
  (filter (λ pf : string * string, ignored ignore_files pf.1 = false) files).
#[local] Abbreviation skipped ignore_files files :=
  (filter (λ pf : string * string, ignored ignore_files pf.1 = true) files).

Lemma kept_skipped_length ignore_files files :
  length (kept ignore_files files) + length (skipped ignore_files files) = length files.
Proof.
  induction files as [|[path contents] files IH]; [done|].
  rewrite !filter_cons. simpl.
  destruct (ignored ignore_files path).
  - rewrite decide_False, decide_True by done. simpl. lia.
  - rewrite decide_True, decide_False by done. simpl. lia.
Qed.

(** C1. When the prompt of every file that is not skipped can be
    rendered, [code_to_text] returns a list of pairs whose paths are the
    paths of the input files that contain no entry of the ignore list, in
    the order of the input, one pair for each such file: a path is in the
    result exactly when it is the path of an input file that is not
    ignored, the result has as many pairs as there are input files less
    the ignored ones, and distinct input paths give distinct result
    paths. *)
Theorem code_to_text_one_entry_per_file env sched ignore_files files prompt w :
  (∀ path contents, (path, contents) ∈ files →
     ignored ignore_files path = false →
     ∃ prompt_code, format prompt contents = Ok prompt_code) →
  ∃ results,
    (code_to_text env sched ignore_files files prompt w).1 = Ok results ∧
    results.*1 = (kept ignore_files files).*1 ∧
    (∀ path, path ∈ results.*1 ↔
       path ∈ files.*1 ∧ ignored ignore_files path = false) ∧
    length results + length (skipped ignore_files files) = length files ∧
    (NoDup files.*1 → NoDup results.*1).
Proof.
  intros Hfmt.
  destruct (create_tasks_total format ignore_files files prompt Hfmt) as [tasks Hct].
  pose proof (code_to_text_from_result format_sentence format api_key env sched
                (next_client w) get_cache ignore_files files prompt
                (get_http_client w).2) as Hres.
  open_code_to_text.
  destruct (fst (code_to_text_from _ _ _ _ _ _ _ _)) as [results|e]; [|congruence].
  exists results. split; [done|]. split; [done|]. split; [|split].
  - intros path. rewrite Hres, !list_elem_of_fmap. split.
    + intros ([p c] & -> & [Hig Hin]%list_elem_of_filter). simpl in *.
      split; [|done]. by exists (p, c).
    + intros [([p c] & -> & Hin) Hig]. exists (p, c). split; [done|].
      by apply list_elem_of_filter.
  - rewrite <- (kept_skipped_length ignore_files files).
    by rewrite <- (length_fmap fst results), Hres, length_fmap.
  - intros Hnd. rewrite Hres. eapply sublist_NoDup; [done|].
    apply fmap_sublist, sublist_filter.
Qed.

Lemma placeholder_says_exceeded (n : string) :
  str_contains "exceeds max token limit" (err +:+ n) = true.
Proof. reflexivity. Qed.

(** C3. For a file that is not skipped and whose rendered prompt has more
    than 4096 whitespace-delimited tokens, the loop makes a placeholder
    task and no fetch task. The text of the placeholder says that the
    prompt exceeds the max token limit; the result of the invocation
    holds the path with that text (unless rendering another prompt
    raised, which ends the invocation); and no request that the
    invocation sends carries the prompt of that file. *)
Theorem over_budget_file_not_sent env sched ignore_files files prompt w
    path contents prompt_code :
  (path, contents) ∈ files →
  ignored ignore_files path = false →
  format prompt contents = Ok prompt_code →
  (MAX_TOKENS < length (split prompt_code))%nat →
  make_task path prompt_code =
    TNull path (err +:+ str_of_nat (length (split prompt_code))) ∧
  str_contains "exceeds max token limit"
    (err +:+ str_of_nat (length (split prompt_code))) = true ∧
  match (code_to_text env sched ignore_files files prompt w).1 with
  | Ok results =>
      (path, err +:+ str_of_nat (length (split prompt_code))) ∈ results
  | Raise e => create_tasks format ignore_files files prompt = Raise e
  end ∧
  ∃ prompts, (prompt_code ∉ prompts) ∧
    sent (rs_world (code_to_text env sched ignore_files files prompt w).2) =
      sent w ++ ((λ p, (next_client w, completion_request api_key p)) <$> prompts).
Proof.
  intros Hin Hig Hf Hover.
  assert (Hmk : make_task path prompt_code =
                TNull path (err +:+ str_of_nat (length (split prompt_code)))).
  { unfold make_task. by rewrite (proj2 (Nat.ltb_lt _ _) Hover). }
  split; [done|]. split; [apply placeholder_says_exceeded|]. split.
  - open_code_to_text. open_code_to_text_from.
    destruct (create_tasks format ignore_files files prompt) as [tasks|e] eqn:Hct; [|done].
    destruct ((gather _ _ _ _ _ _).1) as [results|e] eqn:Hg.
    + assert (Hk : (path, contents) ∈ kept ignore_files files)
        by (by apply list_elem_of_filter).
      apply list_elem_of_lookup_1 in Hk as [j Hj].
      apply (create_tasks_spec format) in Hct.
      destruct (Forall2_lookup_l _ _ _ _ _ Hct Hj) as (t & Ht & pc & Hpc & ->).
      simpl in Hpc, Ht. rewrite Hf in Hpc. injection Hpc as <-. rewrite Hmk in Ht.
      eapply list_elem_of_lookup_2, gather_placeholder; [|done]. done.
    + pose proof (code_to_text_from_result format_sentence format api_key env sched
                    (next_client w) get_cache ignore_files files prompt
                    (get_http_client w).2) as Hres.
      open_code_to_text_from. rewrite Hct in Hres.
      simpl in Hres. by rewrite Hg in Hres.
  - destruct (code_to_text_from_sends format_sentence format api_key env sched
                (next_client w) get_cache ignore_files files prompt
                (get_http_client w).2) as (_ & _ & prompts & Hb & Hsent).
    exists prompts. split; [|done].
    intros Hp. rewrite Forall_forall in Hb. specialize (Hb _ Hp). simpl in Hb. lia.
Qed.

(** C10. The comparison with the limit is strict: for a file that is not
    skipped and whose rendered prompt has exactly 4096 whitespace-delimited
    tokens, the loop makes a fetch task for the path and the prompt, not
    a placeholder. *)
Theorem at_limit_fetch_task_is_made ignore_files files prompt tasks
    path contents prompt_code :
  create_tasks format ignore_files files prompt = Ok tasks →
  (path, contents) ∈ files →
  ignored ignore_files path = false →
  format prompt contents = Ok prompt_code →
  length (split prompt_code) = MAX_TOKENS →
  make_task path prompt_code = TFetch path prompt_code ∧
  TFetch path prompt_code ∈ tasks.
Proof.
  intros Hct Hin Hig Hf Hlen.
  assert (Hmk : make_task path prompt_code = TFetch path prompt_code).
  { unfold make_task. rewrite Hlen. by rewrite Nat.ltb_irrefl. }
  split; [done|].
  assert (Hk : (path, contents) ∈ kept ignore_files files)
    by (by apply list_elem_of_filter).
  apply list_elem_of_lookup_1 in Hk as [j Hj].
  apply (create_tasks_spec format) in Hct.
  destruct (Forall2_lookup_l _ _ _ _ _ Hct Hj) as (t & Ht & pc & Hpc & ->).
  simpl in Hpc, Ht. rewrite Hf in Hpc. injection Hpc as <-. rewrite Hmk in Ht.
  by eapply list_elem_of_lookup_2.
Qed.

(** C7, amended. [code_to_text] makes a new, empty cache at each
    invocation and runs its loop and its batch on it. When that body is
    run on a cache with distinct keys that holds, at every timer reading
    of the run, an unexpired entry for the rendered prompt of every file
    that is fetched, it sends no request at all and keeps the items of
    the cache. *)
Theorem warm_cache_sends_nothing env sched client cache ignore_files files prompt w :
  cache_wf cache →
  (∀ path contents prompt_code,
     (path, contents) ∈ files → ignored ignore_files path = false →
     format prompt contents = Ok prompt_code →
     (length (split prompt_code) ≤ MAX_TOKENS)%nat →
     ∀ n, TTLCache.contains cache (clock env n) prompt_code = true) →
  code_to_text env sched ignore_files files prompt w =
    code_to_text_from env sched (next_client w) get_cache
      ignore_files files prompt (get_http_client w).2 ∧
  sent (rs_world (code_to_text_from env sched client cache
                    ignore_files files prompt w).2) = sent w ∧
  same_items cache
    (rs_cache (code_to_text_from env sched client cache
                 ignore_files files prompt w).2).
Proof.
  intros Hwf Hlive. split; [done|].
  destruct (code_to_text_from_cached format_sentence format api_key env sched
              client cache ignore_files files prompt w Hwf Hlive) as [-> Hsame].
  done.
Qed.

(** C8, amended. Each invocation of [code_to_text] makes exactly one
    transport, every request of the invocation is sent through it, and
    the invocation never closes it: whether the invocation returns or
    raises, the transport is still open at its end. *)
Theorem one_transport_never_closed env sched ignore_files files prompt w :
  next_client (rs_world (code_to_text env sched ignore_files files prompt w).2) =
    S (next_client w) ∧
  open_clients (rs_world (code_to_text env sched ignore_files files prompt w).2) =
    next_client w :: open_clients w ∧
  ∃ prompts,
    sent (rs_world (code_to_text env sched ignore_files files prompt w).2) =
      sent w ++ ((λ p, (next_client w, completion_request api_key p)) <$> prompts).
Proof.
  destruct (code_to_text_from_sends format_sentence format api_key env sched
              (next_client w) get_cache ignore_files files prompt
              (get_http_client w).2) as (Hn & Ho & prompts & _ & Hsent).
  open_code_to_text. eauto.
Qed.

End Claims.

(** * The claims at concrete inputs *)

(** C5 as stated fails: the domain-specific error is not always what is
    raised. With status 200 and the payload [{"choices": null}], which
    holds no list of choices, the test on [choices] raises [TypeError]
    ([len] of [None]), not [OpenAIError]. With status 201 and the payload
    [{"choices": []}] nothing is raised at all: the fallback text is
    returned before the payload is read. *)
Lemma domain_error_not_raised :
  is_success (status_code (ex_response 200 ex_null_choices)) = true ∧
  has_choices_list ex_null_choices = false ∧
  fetch_summary_try format_sentence_spec "src/a.py" "Summarize: print(1)"
    (Responds (ex_response 200 ex_null_choices)) get_cache 0 =
    (Raise TypeError, get_cache) ∧
  is_success (status_code (ex_response 201 ex_empty_choices)) = true ∧
  has_choices_list ex_empty_choices = false ∧
  fetch_summary_try format_sentence_spec "src/a.py" "Summarize: print(1)"
    (Responds (ex_response 201 ex_empty_choices)) get_cache 0 =
    (Ok ("src/a.py", fallback), get_cache).
Proof. by repeat split. Qed.

(** C5, amended, at a response with status 200 and the payload
    [{"choices": []}]. *)
Lemma no_choices_list_gives_fallback_witness :
  fetch_summary_resume format_sentence_spec "src/a.py" "Summarize: print(1)"
    (Responds (ex_response 200 ex_empty_choices)) get_cache 0 =
    (Ok ("src/a.py", fallback), get_cache) ∧
  (∀ e, fetch_summary_resume format_sentence_spec "src/a.py" "Summarize: print(1)"
          (Fails e) get_cache 0 =
        fetch_summary_resume format_sentence_spec "src/a.py" "Summarize: print(1)"
          (Responds (ex_response 200 ex_empty_choices)) get_cache 0) ∧
  (status_code (ex_response 200 ex_empty_choices) = 200%Z →
   ∃ e, fetch_summary_try format_sentence_spec "src/a.py" "Summarize: print(1)"
          (Responds (ex_response 200 ex_empty_choices)) get_cache 0 =
          (Raise e, get_cache) ∧
        (e = OpenAIError "OpenAI response missing 'choices' field."
         ∨ e = TypeError ∨ e = KeyError) ∧
        (lacks_choices ex_empty_choices →
         e = OpenAIError "OpenAI response missing 'choices' field.")) ∧
  (status_code (ex_response 200 ex_empty_choices) ≠ 200%Z →
   fetch_summary_try format_sentence_spec "src/a.py" "Summarize: print(1)"
     (Responds (ex_response 200 ex_empty_choices)) get_cache 0 =
     (Ok ("src/a.py", fallback), get_cache)).
Proof.
  apply (no_choices_list_gives_fallback format_sentence_spec
           "src/a.py" "Summarize: print(1)"
           (ex_response 200 ex_empty_choices) ex_empty_choices get_cache 0);
    reflexivity.
Defined.

(** What is raised at status 200, by the shape of the payload: the domain
    error for [{"choices": []}], [{}], [{"choices": {}}] and [[]];
    [TypeError] for [{"choices": null}], [{"choices": "abc"}] and [null];
    [KeyError] for [{"choices": {"a": null}}]. *)
Example raised_by_payload :
  parse_summary format_sentence_spec <$>
    (ex_response 200 <$>
       [ex_empty_choices; JObj []; JObj [("choices", JObj [])]; JArr [];
        ex_null_choices; JObj [("choices", JStr "abc")]; JNull;
        JObj [("choices", JObj [("a", JNull)])]]) =
  [Raise (OpenAIError "OpenAI response missing 'choices' field.");
   Raise (OpenAIError "OpenAI response missing 'choices' field.");
   Raise (OpenAIError "OpenAI response missing 'choices' field.");
   Raise (OpenAIError "OpenAI response missing 'choices' field.");
   Raise TypeError; Raise TypeError; Raise TypeError;
   Raise KeyError].
Proof. reflexivity. Qed.

(** C9 at a response with status 201 whose body cannot be parsed. *)
Lemma non_200_gives_fallback_witness :
  status_code ex_created ≠ 200%Z ∧
  fetch_summary format_sentence_spec ex_key "src/a.py" "Summarize: print(1)"
    (λ _, Responds ex_created) id get_cache 0 0 1 =
    (Ok ("src/a.py", fallback), get_cache,
     [completion_request ex_key "Summarize: print(1)"]).
Proof.
  assert (H : status_code ex_created ≠ 200%Z) by (simpl; lia).
  split; [exact H|].
  apply (non_200_gives_fallback format_sentence_spec ex_key
           "src/a.py" "Summarize: print(1)" ex_created
           (λ _, Responds ex_created) id get_cache 0 0 1 H);
    reflexivity.
Defined.

(** C6, amended, at the cache that [get_cache] makes and a successful
    answer. *)
Lemma cache_written_only_on_success_witness :
  (0 < TTLCache.maxsize get_cache)%nat ∧
  ∃ kept, kept `sublist_of` TTLCache.links get_cache ∧
    fetch_summary_resume format_sentence_spec "src/a.py" "Summarize: print(1)"
      (Responds (ex_response 200 ex_payload)) get_cache 7 =
      (Ok ("src/a.py", "It prints."),
       {| TTLCache.maxsize := 500; TTLCache.ttl := 600;
          TTLCache.links :=
            kept ++ [TTLCache.Link "Summarize: print(1)" "It prints." 607] |}).
Proof.
  assert (H : (0 < TTLCache.maxsize get_cache)%nat) by (simpl; lia).
  split; [exact H|].
  exact (proj2 (proj2 (cache_written_only_on_success format_sentence_spec ex_key
                         "src/a.py" "Summarize: print(1)"
                         (Responds (ex_response 200 ex_payload)) get_cache 7 7 H))).
Defined.

(** C6 as stated fails on a cache hit. The cache after the hit is not the
    cache before it: the item read has become the most recently used one.
    The difference shows at the next write to the full cache, which evicts
    [PROMPT_Y] after the hit and would have evicted [PROMPT_X] without
    it. *)
Lemma cache_hit_changes_cache :
  TTLCache.contains ex_small_cache 5 "PROMPT_X" = true ∧
  (fetch_summary format_sentence_spec ex_key "src/a.py" "PROMPT_X"
     (λ _, Fails (TransportError "unreachable")) id ex_small_cache 5 5 6).1.2
    ≠ ex_small_cache ∧
  TTLCache.contains
    (TTLCache.setitem ex_small_cache 9 "PROMPT_Z" "new").2 9 "PROMPT_X" = false ∧
  TTLCache.contains
    (TTLCache.setitem
       (fetch_summary format_sentence_spec ex_key "src/a.py" "PROMPT_X"
          (λ _, Fails (TransportError "unreachable")) id ex_small_cache 5 5 6).1.2
       9 "PROMPT_Z" "new").2 9 "PROMPT_X" = true.
Proof.
  split; [reflexivity|]. split; [|split; reflexivity].
  intros H. apply (f_equal TTLCache.links) in H. vm_compute in H. discriminate H.
Qed.

(** C1 at three files of which one is ignored. *)
Lemma code_to_text_one_entry_per_file_witness :
  ∃ results,
    (code_to_text format_sentence_spec str_format ex_key ex_env ex_sched
       ex_ignore ex_files ex_template ex_world).1 = Ok results ∧
    results.*1 = (filter (λ pf : string * string, ignored ex_ignore pf.1 = false) ex_files).*1 ∧
    (∀ path, path ∈ results.*1 ↔ path ∈ ex_files.*1 ∧ ignored ex_ignore path = false) ∧
    length results
      + length (filter (λ pf : string * string, ignored ex_ignore pf.1 = true) ex_files)
      = length ex_files ∧
    (NoDup ex_files.*1 → NoDup results.*1).
Proof.
  apply (code_to_text_one_entry_per_file format_sentence_spec str_format ex_key
           ex_env ex_sched ex_ignore ex_files ex_template ex_world).
  intros path contents _ _. eexists. reflexivity.
Defined.

(** The result at that input. *)
Example code_to_text_example :
  ex_first_run.1 = Ok [("src/a.py", "It prints."); ("src/b.py", "It prints.")].
Proof. vm_compute. reflexivity. Qed.

(** C3 at a file whose prompt has 4097 words. *)
Lemma over_budget_file_not_sent_witness :
  make_task "big.txt" (words 4097) =
    TNull "big.txt" (err +:+ str_of_nat (length (split (words 4097)))) ∧
  str_contains "exceeds max token limit"
    (err +:+ str_of_nat (length (split (words 4097)))) = true ∧
  match (code_to_text format_sentence_spec str_format ex_key ex_env ex_sched
           ex_ignore ex_big_files ex_plain_template ex_world).1 with
  | Ok results =>
      ("big.txt", err +:+ str_of_nat (length (split (words 4097)))) ∈ results
  | Raise e => create_tasks str_format ex_ignore ex_big_files ex_plain_template = Raise e
  end ∧
  ∃ prompts, (words 4097 ∉ prompts) ∧
    sent (rs_world (code_to_text format_sentence_spec str_format ex_key ex_env ex_sched
                      ex_ignore ex_big_files ex_plain_template ex_world).2) =
      sent ex_world ++
      ((λ p, (next_client ex_world, completion_request ex_key p)) <$> prompts).
Proof.
  apply (over_budget_file_not_sent format_sentence_spec str_format ex_key
           ex_env ex_sched ex_ignore ex_big_files ex_plain_template ex_world
           "big.txt" (words 4097) (words 4097)).
  - apply list_elem_of_here.
  - reflexivity.
  - vm_compute. reflexivity.
  - apply Nat.ltb_lt. vm_compute. reflexivity.
Defined.

(** The result at that input: the placeholder for the big file, a summary
    for the other; one request was sent, for the other file. *)
Example over_budget_example :
  let run := code_to_text format_sentence_spec str_format ex_key ex_env ex_sched
               ex_ignore ex_big_files ex_plain_template ex_world in
  run.1 = Ok [("big.txt", "Prompt exceeds max token limit: 4097");
              ("src/a.py", "It prints.")] ∧
  (prompt_field ∘ snd) <$> sent (rs_world run.2) = ["print(1)"].
Proof. vm_compute. split; reflexivity. Qed.

(** C10 at a file whose prompt has exactly 4096 words. *)
Lemma at_limit_fetch_task_is_made_witness :
  length (split (words 4096)) = MAX_TOKENS ∧
  make_task "edge.txt" (words 4096) = TFetch "edge.txt" (words 4096) ∧
  TFetch "edge.txt" (words 4096) ∈ [TFetch "edge.txt" (words 4096)].
Proof.
  assert (H : length (split (words 4096)) = MAX_TOKENS) by (vm_compute; reflexivity).
  split; [exact H|].
  apply (at_limit_fetch_task_is_made str_format ex_ignore ex_edge_files
           ex_plain_template [TFetch "edge.txt" (words 4096)]
           "edge.txt" (words 4096) (words 4096)).
  - vm_compute. reflexivity.
  - apply list_elem_of_here.
  - reflexivity.
  - vm_compute. reflexivity.
  - exact H.
Defined.

(** C7 as stated fails. The first invocation leaves a cache with an entry
    for each of its two prompts, unexpired at every time below 600; the
    second invocation, with the same inputs, runs at times 10 to 13; it
    sends two requests again, so that four have been sent after it. *)
Lemma second_run_sends_again :
  (∀ t, (t < 600)%nat →
     TTLCache.contains (rs_cache ex_first_run.2) t "Summarize: print(1)" = true ∧
     TTLCache.contains (rs_cache ex_first_run.2) t "Summarize: x = 2" = true) ∧
  ex_second_run.1 = ex_first_run.1 ∧
  length (sent (rs_world ex_first_run.2)) = 2 ∧
  length (sent (rs_world ex_second_run.2)) = 4 ∧
  sent (rs_world ex_second_run.2) ≠ sent (rs_world ex_first_run.2).
Proof.
  split; [|split; [|split; [|split]]].
  - intros t Ht. unfold TTLCache.contains.
    set (c := rs_cache ex_first_run.2). vm_compute in c. subst c. simpl.
    unfold TTLCache.alive. simpl.
    split; apply Nat.ltb_lt; lia.
  - vm_compute. reflexivity.
  - vm_compute. reflexivity.
  - vm_compute. reflexivity.
  - intros H. apply (f_equal length) in H. vm_compute in H. discriminate H.
Qed.

(** C7, amended, at the cache that the first invocation left: run on it,
    the body of the second invocation sends nothing. *)
Lemma warm_cache_sends_nothing_witness :
  cache_wf (rs_cache ex_first_run.2) ∧
  sent (rs_world (code_to_text_from format_sentence_spec str_format ex_key
                    ex_env_fast ex_sched 1 (rs_cache ex_first_run.2)
                    ex_ignore ex_files ex_template (rs_world ex_first_run.2)).2) =
    sent (rs_world ex_first_run.2).
Proof.
  assert (Hwf : cache_wf (rs_cache ex_first_run.2)).
  { unfold cache_wf. apply (bool_decide_unpack _). vm_compute. exact I. }
  split; [exact Hwf|].
  apply (warm_cache_sends_nothing format_sentence_spec str_format ex_key
           ex_env_fast ex_sched 1 (rs_cache ex_first_run.2)
           ex_ignore ex_files ex_template (rs_world ex_first_run.2) Hwf).
  intros path contents prompt_code Hin Hig Hf _ n.
  elem_cases Hin.
  - vm_compute in Hf. injection Hf as <-. vm_compute. reflexivity.
  - vm_compute in Hig. discriminate Hig.
  - vm_compute in Hf. injection Hf as <-. vm_compute. reflexivity.
Defined.

(** C8 as stated fails. After an invocation that returns, and after one
    that raises because the template cannot be rendered, the transport that
    the invocation made has not been released. *)
Lemma transport_left_open :
  (∃ results, ex_first_run.1 = Ok results) ∧
  ¬ released (next_client ex_world) (rs_world ex_first_run.2) ∧
  ex_failed_run.1 = Raise ValueError ∧
  ¬ released (next_client ex_world) (rs_world ex_failed_run.2).
Proof.
  split; [|split; [|split]].
  - eexists. vm_compute. reflexivity.
  - intros H. apply H. vm_compute. apply list_elem_of_here.
  - vm_compute. reflexivity.
  - intros H. apply H. vm_compute. apply list_elem_of_here.
Qed.


(** The batch of the spec in which the post for one file is answered with
    status 500: that file gets the fallback text, the other file its own
    summary. *)
Example one_failure_in_a_batch :
  (code_to_text format_sentence_spec str_format ex_key ex_env_one_fails ex_sched
     ex_ignore ex_files ex_template ex_world).1 =
  Ok [("src/a.py", "Error generating file summary."); ("src/b.py", "It prints.")].
Proof. vm_compute. reflexivity. Qed.

(** The run on the file of exactly 4096 words: its prompt is sent, and the
    file gets its summary. *)
Example at_limit_example :
  let run := code_to_text format_sentence_spec str_format ex_key ex_env [0; 0]
               ex_ignore ex_edge_files ex_plain_template ex_world in
  run.1 = Ok [("edge.txt", "It prints.")] ∧
  (prompt_field ∘ snd) <$> sent (rs_world run.2) = [words 4096].
Proof. vm_compute. split; reflexivity. Qed.

(** * More of the code *)

(** ** Stripping *)

Lemma lstrip_while_split p s :
  ∃ pre, s = pre +:+ lstrip_while p s ∧ all_chars p pre = true.
Proof.
  induction s as [|c s IH]; simpl.
  - by exists EmptyString.
  - destruct (p c) eqn:Hc.
    + destruct IH as (pre & Hs & Hpre). exists (String c pre). simpl.
      rewrite Hc, Hpre. split; [|done].
      change (String c s = String c (pre +:+ lstrip_while p s)). by f_equal.
    + by exists EmptyString.
Qed.

Lemma lstrip_while_first p s c :
  first_char (lstrip_while p s) = Some c → p c = false.
Proof.
  induction s as [|d s IH]; simpl; [done|].
  destruct (p d) eqn:Hd; [done|]. simpl. by intros [= <-].
Qed.

Lemma rstrip_while_split p s :
  ∃ suf, s = rstrip_while p s +:+ suf ∧ all_chars p suf = true.
Proof.
  induction s as [|c s IH]; simpl.
  - by exists EmptyString.
  - destruct IH as (suf & Hs & Hsuf).
    destruct (String.eqb_spec (rstrip_while p s) "") as [Hr|Hr]; simpl.
    + destruct (p c) eqn:Hc.
      * exists (String c suf). simpl. rewrite Hc, Hsuf.
        rewrite Hr in Hs. change (s = suf) in Hs. by subst s.
      * exists suf. split; [|done].
        change (String c s = String c (rstrip_while p s +:+ suf)). by f_equal.
    + exists suf. split; [|done].
      change (String c s = String c (rstrip_while p s +:+ suf)). by f_equal.
Qed.

Lemma rstrip_while_last p s c :
  last_char (rstrip_while p s) = Some c → p c = false.
Proof.
  induction s as [|d s IH]; simpl; [done|].
  destruct (String.eqb_spec (rstrip_while p s) "") as [Hr|Hr]; simpl.
  - destruct (p d) eqn:Hd; simpl; [done|]. rewrite Hr. by intros [= <-].
  - destruct (rstrip_while p s) eqn:Hrs; [done|]. apply IH.
Qed.

Lemma rstrip_while_first p s c :
  first_char (rstrip_while p s) = Some c → first_char s = Some c.
Proof.
  destruct s as [|d s]; simpl; [done|].
  by destruct (String.eqb (rstrip_while p s) "" && p d).
Qed.

(** ** [generate_summary_text] *)

Section GenerateFacts.

Variable create : string → string → nat → string → result (list string).

(** X1. What [generate_summary_text] returns never begins and never ends
    with a double quote. *)
Theorem generate_summary_text_no_quotes prompt s :
  generate_summary_text create prompt = Ok s →
  first_char s ≠ Some (ascii_of_nat 34) ∧ last_char s ≠ Some (ascii_of_nat 34).
Proof.
  unfold generate_summary_text.
  destruct (create ENGINE prompt TOKENS TEMPERATURE) as [[|text rest]|e]; simpl; try done.
  intros [= <-]. split.
  - intros H%rstrip_while_first%lstrip_while_first. by vm_compute in H.
  - intros H%rstrip_while_last. by vm_compute in H.
Qed.

(** X2. [generate_summary_text] only trims the ends of the text of the
    first choice: that text is whitespace, then double quotes, then what is
    returned, then double quotes. The other choices are not used. *)
Theorem generate_summary_text_trims_ends prompt s :
  generate_summary_text create prompt = Ok s →
  ∃ text rest ws q1 q2,
    create ENGINE prompt TOKENS TEMPERATURE = Ok (text :: rest) ∧
    text = ws +:+ q1 +:+ s +:+ q2 ∧
    all_chars isspace ws = true ∧
    all_chars is_quote q1 = true ∧
    all_chars is_quote q2 = true.
Proof.
  unfold generate_summary_text.
  destruct (create ENGINE prompt TOKENS TEMPERATURE) as [[|text rest]|e]; simpl; try done.
  intros [= <-].
  destruct (lstrip_while_split isspace text) as (ws & Hws & ?).
  destruct (lstrip_while_split is_quote (lstrip_while isspace text)) as (q1 & Hq1 & ?).
  destruct (rstrip_while_split is_quote
              (lstrip_while is_quote (lstrip_while isspace text))) as (q2 & Hq2 & ?).
  exists text, rest, ws, q1, q2. split; [done|]. split; [|done].
  by rewrite <- Hq2, <- Hq1.
Qed.

(** X3. [generate_summary_text] absorbs no failure: it raises exactly when
    the call of the API raises, with the same exception, or when the API
    returns no choice, with [IndexError]. *)
Theorem generate_summary_text_raises prompt e :
  generate_summary_text create prompt = Raise e ↔
  create ENGINE prompt TOKENS TEMPERATURE = Raise e ∨
  (create ENGINE prompt TOKENS TEMPERATURE = Ok [] ∧ e = IndexError).
Proof.
  unfold generate_summary_text.
  destruct (create ENGINE prompt TOKENS TEMPERATURE) as [[|text rest]|e']; simpl.
  - split; [intros [= <-]; by right|]. by intros [?|[_ ->]].
  - split; [done|]. by intros [?|[? _]].
  - split; [intros [= <-]; by left|]. by intros [[= <-]|[? _]].
Qed.

End GenerateFacts.

(** X1 and X2 at an answer with two choices, the first a quoted text after
    a line break. *)
Lemma generate_summary_text_no_quotes_witness :
  generate_summary_text ex_create "Summarize: print(1)" = Ok "A summary." ∧
  first_char "A summary." ≠ Some (ascii_of_nat 34) ∧
  last_char "A summary." ≠ Some (ascii_of_nat 34).
Proof.
  assert (H : generate_summary_text ex_create "Summarize: print(1)" = Ok "A summary.")
    by reflexivity.
  split; [exact H|].
  exact (generate_summary_text_no_quotes ex_create "Summarize: print(1)" "A summary." H).
Defined.

Lemma generate_summary_text_trims_ends_witness :
  ∃ text rest ws q1 q2,
    ex_create ENGINE "Summarize: print(1)" TOKENS TEMPERATURE = Ok (text :: rest) ∧
    text = ws +:+ q1 +:+ "A summary." +:+ q2 ∧
    all_chars isspace ws = true ∧
    all_chars is_quote q1 = true ∧
    all_chars is_quote q2 = true.
Proof.
  apply (generate_summary_text_trims_ends ex_create "Summarize: print(1)" "A summary.").
  reflexivity.
Defined.

(** ** Counting tokens *)

Lemma append_char_nonempty cur c : String.eqb (cur +:+ String c "") "" = false.
Proof. by destruct cur. Qed.

(** Two tokens are at least one whitespace character apart. *)
Lemma split_from_length s : ∀ cur,
  (2 * length (split_from cur s)
   ≤ String.length s + (if String.eqb cur "" then 1 else 2))%nat.
Proof.
  induction s as [|c s IH]; intros cur; simpl.
  - destruct (String.eqb cur ""); simpl; lia.
  - destruct (isspace c).
    + specialize (IH ""). simpl in IH.
      destruct (String.eqb cur ""); simpl; lia.
    + specialize (IH (cur +:+ String c "")).
      change (String.append cur (String c "")) with (cur +:+ String c "").
      rewrite append_char_nonempty in IH.
      destruct (String.eqb cur ""); lia.
Qed.

Lemma split_length s : (2 * length (split s) ≤ String.length s + 1)%nat.
Proof. apply (split_from_length s ""). Qed.

(** X4. A rendered prompt of at most 8192 characters (twice the limit) is
    never over the budget: the loop makes a fetch task for it, whatever it
    contains. *)
Theorem short_prompt_is_fetched path prompt_code :
  (String.length prompt_code ≤ 2 * MAX_TOKENS)%nat →
  make_task path prompt_code = TFetch path prompt_code.
Proof.
  intros Hlen. unfold make_task.
  pose proof (split_length prompt_code) as Hs.
  destruct (Nat.ltb_spec MAX_TOKENS (length (split prompt_code))) as [Hover|_]; [|done].
  lia.
Qed.

Lemma short_prompt_is_fetched_witness :
  (String.length (words 4096) ≤ 2 * MAX_TOKENS)%nat ∧
  make_task "edge.txt" (words 4096) = TFetch "edge.txt" (words 4096).
Proof.
  assert (H : (String.length (words 4096) ≤ 2 * MAX_TOKENS)%nat).
  { apply Nat.leb_le. vm_compute. reflexivity. }
  split; [exact H|].
  exact (short_prompt_is_fetched "edge.txt" (words 4096) H).
Defined.

(** ** Files that are skipped *)

Section SkippedFacts.

Variable format_sentence : json → result string.
Variable format : string → string → result string.
Variable api_key : option string.

#[local] Abbreviation code_to_text := (code_to_text format_sentence format api_key).

Lemma create_tasks_all_ignored ignore_files files prompt :
  (∀ path contents, (path, contents) ∈ files → ignored ignore_files path = true) →
  create_tasks format ignore_files files prompt = Ok [].
Proof.
  induction files as [|[path contents] files IH]; intros Hall; simpl; [done|].
  rewrite (Hall path contents) by left. apply IH.
  intros p c Hin. apply (Hall p c). by right.
Qed.

(** With no task, the batch returns the empty list and changes nothing. *)
Lemma gather_no_task env sched client w cache :
  gather format_sentence api_key env sched client (RunState w cache [] 0) =
    (Ok [], RunState w cache [] 0).
Proof.
  open_gather.
  assert (Hs : foldl (advance format_sentence api_key env client)
                 (RunState w cache [] 0) sched = RunState w cache [] 0).
  { induction sched as [|i sched IH]; [done|].
    change (foldl (advance format_sentence api_key env client)
              (advance format_sentence api_key env client (RunState w cache [] 0) i)
              sched = RunState w cache [] 0).
    by replace (advance format_sentence api_key env client (RunState w cache [] 0) i)
      with (RunState w cache [] 0). }
  by rewrite Hs.
Qed.

Lemma empty_entry_ignores_all ignore_files path :
  "" ∈ ignore_files → ignored ignore_files path = true.
Proof.
  intros Hin. unfold ignored. apply existsb_exists. exists "".
  split; [by apply list_elem_of_In|by destruct path].
Qed.

(** X5. When every input file is skipped (and so when there is no input
    file), [code_to_text] returns the empty list and sends no request; the
    template is never rendered, so a template that cannot be rendered
    raises nothing. *)
Theorem all_ignored_returns_nothing env sched ignore_files files prompt w :
  (∀ path contents, (path, contents) ∈ files → ignored ignore_files path = true) →
  (code_to_text env sched ignore_files files prompt w).1 = Ok [] ∧
  sent (rs_world (code_to_text env sched ignore_files files prompt w).2) = sent w.
Proof.
  intros Hall. open_code_to_text. open_code_to_text_from.
  rewrite (create_tasks_all_ignored _ _ _ Hall).
  by rewrite gather_no_task.
Qed.

(** X6. An empty string in the ignore list skips every file: it is a
    substring of every path. The result is then empty whatever the files
    are. *)
Theorem empty_ignore_entry_skips_everything env sched ignore_files files prompt w :
  "" ∈ ignore_files →
  (∀ path, ignored ignore_files path = true) ∧
  (code_to_text env sched ignore_files files prompt w).1 = Ok [] ∧
  sent (rs_world (code_to_text env sched ignore_files files prompt w).2) = sent w.
Proof.
  intros Hin. split; [intros path; by apply empty_entry_ignores_all|].
  open_code_to_text. open_code_to_text_from.
  rewrite create_tasks_all_ignored.
  - by rewrite gather_no_task.
  - intros path contents _. by apply empty_entry_ignores_all.
Qed.

(** X7. Every request that an invocation sends goes through the transport
    of the invocation and is the completion request (engine, 500 tokens,
    temperature 0.7, key of the environment) for the rendered prompt of an
    input file that is not skipped and is within the budget: nothing of a
    skipped file, and no prompt over the budget, is ever sent. *)
Theorem only_rendered_prompts_are_sent env sched ignore_files files prompt w :
  ∃ prompts,
    Forall (λ p, ∃ path contents,
              (path, contents) ∈ files ∧ ignored ignore_files path = false ∧
              format prompt contents = Ok p ∧
              (length (split p) ≤ MAX_TOKENS)%nat) prompts ∧
    sent (rs_world (code_to_text env sched ignore_files files prompt w).2) =
      sent w ++ ((λ p, (next_client w, completion_request api_key p)) <$> prompts).
Proof.
  set (P := λ p, ∃ path contents,
              (path, contents) ∈ files ∧ ignored ignore_files path = false ∧
              format prompt contents = Ok p ∧
              (length (split p) ≤ MAX_TOKENS)%nat).
  open_code_to_text. open_code_to_text_from.
  destruct (create_tasks format ignore_files files prompt) as [tasks|e] eqn:Hct.
  2:{ exists []. split; [constructor|]. simpl. by rewrite app_nil_r. }
  set (w1 := {| next_client := S (next_client w);
                open_clients := next_client w :: open_clients w;
                sent := sent w |}).
  destruct (gather_inv format_sentence api_key env (next_client w)
              (λ _ t, ∀ p, task_prompt t = Some p → P p)
              (λ w' _, sends_only api_key (next_client w) P w1 w'))
    with (sched := sched) (s := RunState w1 get_cache tasks 0)
    as (_ & _ & _ & _ & _ & _ & prompts & HP & Hsent).
  - intros i t s HQ Hw. by apply run_segment_sends.
  - split.
    + simpl. intros j t Hj p Hp.
      apply (create_tasks_spec format) in Hct.
      destruct (Forall2_lookup_r _ _ _ _ _ Hct Hj) as ([path contents] & Hin & pc & Hf & ->).
      apply make_task_prompt in Hp as [-> Hb].
      apply list_elem_of_lookup_2, list_elem_of_filter in Hin as [Hig Hin].
      by exists path, contents.
    + repeat split. exists []. split; [constructor|]. simpl. by rewrite app_nil_r.
  - by exists prompts.
Qed.

End SkippedFacts.

(** X5 at files that are all skipped and a template that cannot be
    rendered. *)
Lemma all_ignored_returns_nothing_witness :
  (code_to_text format_sentence_spec str_format ex_key ex_env ex_sched
     ex_all_ignored ex_files ex_bad_template ex_world).1 = Ok [] ∧
  sent (rs_world (code_to_text format_sentence_spec str_format ex_key ex_env ex_sched
                    ex_all_ignored ex_files ex_bad_template ex_world).2) = sent ex_world.
Proof.
  apply (all_ignored_returns_nothing format_sentence_spec str_format ex_key
           ex_env ex_sched ex_all_ignored ex_files ex_bad_template ex_world).
  intros path contents Hin. elem_cases Hin; reflexivity.
Defined.

(** X6 at the ignore list that holds only the empty string. *)
Lemma empty_ignore_entry_skips_everything_witness :
  (∀ path, ignored ex_ignore_everything path = true) ∧
  (code_to_text format_sentence_spec str_format ex_key ex_env ex_sched
     ex_ignore_everything ex_files ex_template ex_world).1 = Ok [] ∧
  sent (rs_world (code_to_text format_sentence_spec str_format ex_key ex_env ex_sched
                    ex_ignore_everything ex_files ex_template ex_world).2) = sent ex_world.
Proof.
  apply (empty_ignore_entry_skips_everything format_sentence_spec str_format ex_key
           ex_env ex_sched ex_ignore_everything ex_files ex_template ex_world).
  apply list_elem_of_here.
Defined.

(** ** How many requests are sent *)

Section CountFacts.

Variable format_sentence : json → result string.
Variable format : string → string → result string.
Variable api_key : option string.
Variable env : environment.
Variable client : nat.

#[local] Abbreviation run_segment := (run_segment format_sentence api_key env client).
#[local] Abbreviation complete := (complete format_sentence api_key env client).
#[local] Abbreviation await_all := (await_all format_sentence api_key env client).
#[local] Abbreviation requests s := (length (sent (rs_world s))).

Lemma fetch_count_insert ts i t t' :
  ts !! i = Some t →
  (fetch_count (<[i:=t']> ts) + unstarted t = fetch_count ts + unstarted t')%nat.
Proof.
  revert i. induction ts as [|u ts IH]; intros [|i]; simpl; try done.
  - intros [= ->]. lia.
  - intros Hi. specialize (IH i Hi). lia.
Qed.

Lemma fetch_count_length ts : (fetch_count ts ≤ length ts)%nat.
Proof.
  induction ts as [|t ts IH]; simpl; [done|]. destruct t; simpl; lia.
Qed.

(** A segment sends a request only when it starts a fetch task. *)
Lemma run_segment_requests i t s :
  (requests (run_segment i t s).2 + unstarted (run_segment i t s).1
   ≤ requests s + unstarted t)%nat.
Proof.
  destruct t as [file summary|file prompt|file prompt|r]; simpl; try lia.
  - destruct (start_task_cases api_key env client file prompt s)
      as (c' & _ & [(v & _ & ->)|(_ & _ & ->)]); simpl; [lia|].
    rewrite length_app. simpl. lia.
  - destruct (resume_task_returns format_sentence api_key env i file prompt s)
      as (text & c' & ->). simpl. lia.
Qed.

Lemma advance_requests s i :
  (requests (advance format_sentence api_key env client s i)
   + fetch_count (rs_tasks (advance format_sentence api_key env client s i))
   ≤ requests s + fetch_count (rs_tasks s))%nat.
Proof.
  open_advance. destruct (rs_tasks s !! i) as [t|] eqn:Hi; [|done].
  pose proof (run_segment_requests i t s) as Hseg.
  pose proof (run_segment_tasks format_sentence api_key env client i t s) as Hts.
  destruct (run_segment i t s) as [t' s']; simpl in *.
  rewrite Hts. pose proof (fetch_count_insert _ _ _ t' Hi). lia.
Qed.

Lemma schedule_requests sched : ∀ s,
  (requests (foldl (advance format_sentence api_key env client) s sched)
   + fetch_count (rs_tasks (foldl (advance format_sentence api_key env client) s sched))
   ≤ requests s + fetch_count (rs_tasks s))%nat.
Proof.
  induction sched as [|i sched IH]; intros s; simpl; [done|].
  etrans; [apply IH|apply advance_requests].
Qed.

Lemma complete_requests i t s :
  (requests (complete i t s).2 ≤ requests s + unstarted t)%nat.
Proof.
  destruct (complete_segments format_sentence api_key env client i t s) as (r & -> & _).
  simpl.
  pose proof (run_segment_requests i t s).
  pose proof (run_segment_requests i (run_segment i t s).1 (run_segment i t s).2).
  lia.
Qed.

Lemma await_all_requests ts : ∀ i s,
  (requests (await_all i ts s).2 ≤ requests s + fetch_count ts)%nat.
Proof.
  induction ts as [|t ts IH]; intros i s; simpl; [lia|].
  pose proof (complete_requests i t s) as Hc.
  destruct (complete i t s) as [r s1]; simpl in *.
  specialize (IH (S i) (set_task i (TDone r) s1)).
  destruct (await_all (S i) ts _) as [rs s2]; simpl in *. lia.
Qed.

Lemma gather_requests sched s :
  (requests (gather format_sentence api_key env sched client s).2
   ≤ requests s + fetch_count (rs_tasks s))%nat.
Proof.
  open_gather.
  pose proof (schedule_requests sched s) as Hs.
  set (s1 := foldl _ s sched) in *.
  pose proof (await_all_requests (rs_tasks s1) 0 s1) as Ha.
  destruct (await_all 0 (rs_tasks s1) s1) as [rs s2]; simpl in *. lia.
Qed.

End CountFacts.

Section CountClaims.

Variable format_sentence : json → result string.
Variable format : string → string → result string.
Variable api_key : option string.

#[local] Abbreviation code_to_text := (code_to_text format_sentence format api_key).

(** X8. Whatever the order in which the tasks run, an invocation sends at
    most one request for each input file that is not skipped. *)
Theorem at_most_one_request_per_file env sched ignore_files files prompt w :
  (length (sent (rs_world (code_to_text env sched ignore_files files prompt w).2))
   ≤ length (sent w)
     + length (filter (λ pf : string * string, ignored ignore_files pf.1 = false) files))%nat.
Proof.
  open_code_to_text. open_code_to_text_from.
  destruct (create_tasks format ignore_files files prompt) as [tasks|e] eqn:Hct;
    [|simpl; lia].
  etrans; [apply gather_requests|]. simpl.
  apply (create_tasks_spec format) in Hct. apply Forall2_length in Hct.
  pose proof (fetch_count_length tasks). lia.
Qed.

End CountClaims.

(** ** Tasks that all start before any answer arrives *)

Section FifoFacts.

Variable format_sentence : json → result string.
Variable format : string → string → result string.
Variable api_key : option string.
Variable env : environment.
Variable client : nat.

#[local] Abbreviation advance := (advance format_sentence api_key env client).
#[local] Abbreviation gather := (gather format_sentence api_key env).
#[local] Abbreviation post_of := (λ p : string, (client, completion_request api_key p)).

Lemma contains_empty c now k :
  TTLCache.links c = [] → TTLCache.contains c now k = false.
Proof. intros H. unfold TTLCache.contains. by rewrite H. Qed.

(** The first segment of a new task when the cache holds nothing. *)
Lemma advance_new_task s i path prompt_code :
  rs_tasks s !! i = Some (make_task path prompt_code) →
  TTLCache.links (rs_cache s) = [] →
  rs_tasks (advance s i) = <[i:=after_start (make_task path prompt_code)]> (rs_tasks s) ∧
  rs_cache (advance s i) = rs_cache s ∧
  next_client (rs_world (advance s i)) = next_client (rs_world s) ∧
  open_clients (rs_world (advance s i)) = open_clients (rs_world s) ∧
  sent (rs_world (advance s i)) =
    sent (rs_world s) ++ (post_of <$> omap task_prompt [make_task path prompt_code]).
Proof.
  intros Hi Hempty. open_advance. rewrite Hi. unfold make_task.
  destruct (_ <? _)%nat; simpl.
  - by rewrite app_nil_r.
  - unfold start_task.
    rewrite fetch_summary_start_miss by (by apply contains_empty). done.
Qed.

Lemma start_phase todo : ∀ done s,
  rs_tasks s = done ++ todo →
  TTLCache.links (rs_cache s) = [] →
  Forall (λ t, ∃ path prompt_code, t = make_task path prompt_code) todo →
  rs_tasks (foldl advance s (seq (length done) (length todo)))
    = done ++ (after_start <$> todo) ∧
  next_client (rs_world (foldl advance s (seq (length done) (length todo))))
    = next_client (rs_world s) ∧
  open_clients (rs_world (foldl advance s (seq (length done) (length todo))))
    = open_clients (rs_world s) ∧
  sent (rs_world (foldl advance s (seq (length done) (length todo))))
    = sent (rs_world s) ++ (post_of <$> omap task_prompt todo).
Proof.
  induction todo as [|t todo IH]; intros done s Hts Hempty Hnew.
  - simpl. rewrite app_nil_r in Hts. by rewrite !app_nil_r.
  - apply Forall_cons in Hnew as [(path & pc & ->) Hnew].
    assert (Hi : rs_tasks s !! length done = Some (make_task path pc))
      by (rewrite Hts; by apply list_lookup_middle).
    destruct (advance_new_task s (length done) path pc Hi Hempty)
      as (Hts1 & Hc1 & Hn1 & Ho1 & Hs1).
    cbn [length seq foldl].
    destruct (IH (done ++ [after_start (make_task path pc)]) (advance s (length done)))
      as (Hts2 & Hn2 & Ho2 & Hs2); [| |done|].
    { rewrite Hts1, Hts, insert_app_r_alt, Nat.sub_diag by done. simpl.
      by rewrite <- (assoc_L (++)). }
    { by rewrite Hc1. }
    rewrite length_app in Hts2, Hn2, Ho2, Hs2. simpl in Hts2, Hn2, Ho2, Hs2.
    rewrite Nat.add_1_r in Hts2, Hn2, Ho2, Hs2.
    rewrite Hts2, Hn2, Ho2, Hs2, Hn1, Ho1, Hs1.
    split; [by rewrite <- (assoc_L (++))|]. split; [done|]. split; [done|].
    rewrite <- (assoc_L (++)). f_equal. rewrite <- fmap_app. f_equal.
    unfold make_task. by destruct (_ <? _)%nat.
Qed.

Lemma fetch_count_after_start ts :
  Forall (λ t, ∃ path prompt_code, t = make_task path prompt_code) ts →
  fetch_count (after_start <$> ts) = 0.
Proof.
  induction 1 as [|t ts (path & pc & ->) _ IH]; [done|].
  rewrite fmap_cons. cbn [fetch_count].
  rewrite IH. unfold make_task. by destruct (_ <? _)%nat.
Qed.

(** Once no fetch task is left to start, the batch sends nothing more. *)
Lemma gather_started sched s :
  fetch_count (rs_tasks s) = 0 →
  sent (rs_world (gather sched client s).2) = sent (rs_world s).
Proof.
  intros Hcount.
  pose proof (gather_requests format_sentence api_key env client sched s) as Hlen.
  destruct (gather_inv format_sentence api_key env client
              (λ _ _, True)
              (λ w' _, sends_only api_key client (λ _, True) (rs_world s) w'))
    with (sched := sched) (s := s) as (_ & _ & _ & _ & _ & _ & prompts & _ & Hsent).
  - intros i t s' _ Hw. split; [done|].
    by apply (run_segment_sends format_sentence api_key env client (λ _, True)).
  - split; [done|]. repeat split. exists []. split; [constructor|].
    simpl. by rewrite app_nil_r.
  - rewrite Hsent in Hlen |- *. rewrite length_app, length_fmap, Hcount in Hlen.
    destruct prompts; simpl in *; [by rewrite app_nil_r|lia].
Qed.

Lemma gather_app sched rest s :
  gather (sched ++ rest) client s = gather rest client (foldl advance s sched).
Proof. open_gather. by rewrite foldl_app. Qed.

End FifoFacts.

Section FifoClaims.

Variable format_sentence : json → result string.
Variable format : string → string → result string.
Variable api_key : option string.

#[local] Abbreviation code_to_text := (code_to_text format_sentence format api_key).

(** X9. When the event loop runs the first segment of every task before
    any answer arrives (the order of [asyncio] with a transport that
    suspends), the lookups all miss the new cache: the invocation sends
    one request for every fetch task, in the order of the files, also for
    prompts that are equal. *)
Theorem fifo_start_sends_every_prompt env rest ignore_files files prompt w tasks :
  create_tasks format ignore_files files prompt = Ok tasks →
  sent (rs_world (code_to_text env (seq 0 (length tasks) ++ rest)
                    ignore_files files prompt w).2) =
    sent w ++ ((λ p, (next_client w, completion_request api_key p))
                 <$> omap task_prompt tasks).
Proof.
  intros Hct. open_code_to_text. open_code_to_text_from. rewrite Hct.
  assert (Hnew : Forall (λ t, ∃ path pc, t = make_task path pc) tasks).
  { apply (create_tasks_spec format) in Hct.
    apply Forall_forall. intros t [j Hj]%list_elem_of_lookup_1.
    destruct (Forall2_lookup_r _ _ _ _ _ Hct Hj) as ([path contents] & _ & pc & _ & ->).
    eauto. }
  rewrite gather_app.
  set (s0 := RunState _ get_cache tasks 0).
  destruct (start_phase format_sentence api_key env (next_client w) tasks [] s0)
    as (Hts & _ & _ & Hsent); [done..|].
  simpl in Hts, Hsent.
  rewrite gather_started; [done|].
  rewrite Hts. by apply fetch_count_after_start.
Qed.

End FifoClaims.

(** X9 at two files with the same contents: the same request is sent
    twice. *)
Lemma fifo_start_sends_every_prompt_witness :
  create_tasks str_format ex_ignore ex_twin_files ex_template =
    Ok [TFetch "src/a.py" "Summarize: print(1)";
        TFetch "src/copy_of_a.py" "Summarize: print(1)"] ∧
  sent (rs_world (code_to_text format_sentence_spec str_format ex_key ex_env
                    (seq 0 2 ++ [1; 0]) ex_ignore ex_twin_files ex_template
                    ex_world).2) =
    [(0, completion_request ex_key "Summarize: print(1)");
     (0, completion_request ex_key "Summarize: print(1)")].
Proof.
  assert (H : create_tasks str_format ex_ignore ex_twin_files ex_template =
              Ok [TFetch "src/a.py" "Summarize: print(1)";
                  TFetch "src/copy_of_a.py" "Summarize: print(1)"])
    by reflexivity.
  split; [exact H|].
  exact (fifo_start_sends_every_prompt format_sentence_spec str_format ex_key
           ex_env [1; 0] ex_ignore ex_twin_files ex_template ex_world _ H).
Defined.

(** ** What the cache holds after a fetch *)

Section CacheMoreFacts.

Import TTLCache.

Implicit Types (c : t) (ls : list link) (k : string) (now : time).

Lemma find_link_app_fresh k v e ls :
  k ∉ key <$> ls → find_link k (ls ++ [Link k v e]) = Some (Link k v e).
Proof.
  induction ls as [|l ls IH]; simpl.
  - intros _. by rewrite String.eqb_refl.
  - rewrite not_elem_of_cons. intros [Hne Hin].
    destruct (String.eqb_spec k (key l)); [done|]. by apply IH.
Qed.

Lemma remove_link_fresh k ls l :
  NoDup (key <$> ls) → find_link k ls = Some l → k ∉ key <$> remove_link k ls.
Proof.
  induction ls as [|l0 ls IH]; simpl; [done|].
  rewrite NoDup_cons. intros [Hfresh Hnd].
  destruct (String.eqb_spec k (key l0)) as [->|Hne]; [done|].
  intros Hf. simpl. rewrite not_elem_of_cons. split; [done|]. by apply IH.
Qed.

Lemma remove_link_length k ls l :
  find_link k ls = Some l → S (length (remove_link k ls)) = length ls.
Proof.
  induction ls as [|l0 ls IH]; simpl; [done|].
  destruct (String.eqb k (key l0)); [done|]. intros Hf. simpl. by rewrite IH.
Qed.

Lemma evict_length m ls : (0 < m → length (evict m ls) < m)%nat.
Proof.
  intros Hm. induction ls as [|l ls IH]; [done|].
  cbn [evict]. destruct (Nat.ltb_spec m (length (l :: ls) + 1)); [done|lia].
Qed.

Lemma sublist_keys_fresh k ls ls' :
  ls' `sublist_of` ls → k ∉ key <$> ls → k ∉ key <$> ls'.
Proof.
  intros Hsub Hk Hin. apply Hk.
  eapply elem_of_sublist; [done|]. by apply fmap_sublist.
Qed.

Lemma sublist_keys_NoDup ls ls' :
  ls' `sublist_of` ls → NoDup (key <$> ls) → NoDup (key <$> ls').
Proof. intros Hsub Hnd. eapply sublist_NoDup; [done|]. by apply fmap_sublist. Qed.

(** Writing to a cache with distinct keys stores the item as the only one
    for its key, among items that were there. *)
Lemma setitem_stores_fresh c now k v :
  cache_wf c → (0 < maxsize c)%nat →
  ∃ kept, kept `sublist_of` links c ∧ (k ∉ key <$> kept) ∧
    setitem c now k v =
      (Ok tt, {| maxsize := maxsize c; ttl := ttl c;
                 links := kept ++ [Link k v (now + ttl c)] |}).
Proof.
  intros Hwf Hm. unfold setitem.
  destruct (Nat.ltb_spec (maxsize c) 1) as [?|_]; [lia|].
  set (live := links (expire c now)).
  assert (Hlive : live `sublist_of` links c) by apply sublist_filter.
  assert (Hnd : NoDup (key <$> live)) by (by eapply sublist_keys_NoDup).
  destruct (find_link k live) as [l|] eqn:Hf.
  - exists (remove_link k live). split; [|split; [|done]].
    + etrans; [apply remove_link_sublist|done].
    + by eapply remove_link_fresh.
  - exists (evict (maxsize c) live). split; [|split; [|done]].
    + etrans; [apply evict_sublist|done].
    + eapply sublist_keys_fresh; [apply evict_sublist|]. by apply find_link_None.
Qed.

(** Writing keeps the keys distinct and the cache within its size. *)
Lemma setitem_ok c now k v :
  cache_ok c →
  cache_ok (setitem c now k v).2 ∧ maxsize (setitem c now k v).2 = maxsize c.
Proof.
  intros [Hwf Hlen]. unfold setitem, cache_ok, cache_wf in *.
  set (live := links (expire c now)).
  assert (Hlive : live `sublist_of` links c) by apply sublist_filter.
  assert (Hnd : NoDup (key <$> live)) by (by eapply sublist_keys_NoDup).
  assert (Hll : (length live ≤ length (links c))%nat) by (by apply sublist_length).
  destruct (Nat.ltb_spec (maxsize c) 1) as [?|Hm]; simpl.
  { split; [split; [exact Hnd|etrans; [exact Hll|exact Hlen]]|done]. }
  destruct (find_link k live) as [l|] eqn:Hf; simpl.
  - split; [|done]. split.
    + rewrite fmap_app. simpl. apply NoDup_app. split; [|split].
      * eapply sublist_keys_NoDup; [apply remove_link_sublist|done].
      * intros k' Hin ->%list_elem_of_singleton.
        by apply (remove_link_fresh k live l Hnd Hf).
      * apply NoDup_singleton.
    + rewrite length_app. simpl.
      pose proof (remove_link_length k live l Hf). lia.
  - split; [|done]. split.
    + rewrite fmap_app. simpl. apply NoDup_app. split; [|split].
      * eapply sublist_keys_NoDup; [apply evict_sublist|done].
      * intros k' Hin ->%list_elem_of_singleton. revert Hin.
        eapply sublist_keys_fresh; [apply evict_sublist|]. by apply find_link_None.
      * apply NoDup_singleton.
    + rewrite length_app. simpl.
      pose proof (evict_length (maxsize c) live). lia.
Qed.

Lemma same_items_ok c c' :
  same_items c c' → cache_ok c → cache_ok c' ∧ maxsize c' = maxsize c.
Proof.
  intros Hsame [Hwf Hlen]. pose proof Hsame as (Hm & _ & Hp).
  split; [|done]. split; [by eapply same_items_wf|].
  by rewrite Hm, Hp.
Qed.

End CacheMoreFacts.

Section CacheClaims.

Variable format_sentence : json → result string.
Variable format : string → string → result string.
Variable api_key : option string.

#[local] Abbreviation fetch_summary := (fetch_summary format_sentence api_key).
#[local] Abbreviation fetch_summary_resume := (fetch_summary_resume format_sentence).
#[local] Abbreviation code_to_text := (code_to_text format_sentence format api_key).

(** The cache after a fetch that obtained [summary]. *)
Lemma resume_stores file prompt o cache now summary :
  cache_wf cache → (0 < TTLCache.maxsize cache)%nat →
  fetched format_sentence o = Some summary →
  TTLCache.find_link prompt
    (TTLCache.links (fetch_summary_resume file prompt o cache now).2) =
    Some (TTLCache.Link prompt summary (now + TTLCache.ttl cache)).
Proof.
  intros Hwf Hm Hf.
  destruct (setitem_stores_fresh cache now prompt summary Hwf Hm)
    as (kept & _ & Hfresh & Hset).
  rewrite (fetch_summary_resume_fetched _ _ _ _ _ _ _ Hf), Hset. simpl.
  by apply find_link_app_fresh.
Qed.

(** X10. A summary that was fetched is served from the cache: after a
    fully successful fetch at time [now], a call of [fetch_summary] for the
    same prompt whose lookup reads the timer before [now + ttl], at the
    test [prompt in cache] and at the read [cache[prompt]], returns that
    summary with the path it is given, and sends no request. *)
Theorem fetched_summary_is_served file file' prompt o cache now summary
    transport others t0 t0' t1 :
  cache_wf cache → (0 < TTLCache.maxsize cache)%nat →
  fetched format_sentence o = Some summary →
  (t0 < now + TTLCache.ttl cache)%nat →
  (t0' < now + TTLCache.ttl cache)%nat →
  (fetch_summary file' prompt transport others
     (fetch_summary_resume file prompt o cache now).2 t0 t0' t1).1.1 = Ok (file', summary) ∧
  (fetch_summary file' prompt transport others
     (fetch_summary_resume file prompt o cache now).2 t0 t0' t1).2 = [].
Proof.
  intros Hwf Hm Hf Ht Ht'.
  pose proof (resume_stores file prompt o cache now summary Hwf Hm Hf) as Hfind.
  set (c' := (fetch_summary_resume file prompt o cache now).2) in *.
  assert (Hin : ∀ t, (t < now + TTLCache.ttl cache)%nat →
                     TTLCache.contains c' t prompt = true).
  { intros t Hlt. unfold TTLCache.contains. rewrite Hfind. by apply Nat.ltb_lt. }
  destruct (fetch_summary_start_hit api_key file' prompt c' t0 t0' (Hin _ Ht) (Hin _ Ht'))
    as (l & Hl & Hst).
  rewrite Hfind in Hl. injection Hl as <-.
  open_fetch_summary. by rewrite Hst.
Qed.

(** X11. A summary that was fetched expires: from time [now + ttl] on
    (600 after the fetch, for the cache of [get_cache]) the lookup for the
    same prompt misses, and [fetch_summary] sends the request again. *)
Theorem fetched_summary_expires file file' prompt o cache now summary
    transport others t0 t0' t1 :
  cache_wf cache → (0 < TTLCache.maxsize cache)%nat →
  fetched format_sentence o = Some summary →
  (now + TTLCache.ttl cache ≤ t0)%nat →
  TTLCache.contains (fetch_summary_resume file prompt o cache now).2 t0 prompt = false ∧
  (fetch_summary file' prompt transport others
     (fetch_summary_resume file prompt o cache now).2 t0 t0' t1).2 =
    [completion_request api_key prompt].
Proof.
  intros Hwf Hm Hf Ht.
  pose proof (resume_stores file prompt o cache now summary Hwf Hm Hf) as Hfind.
  set (c' := (fetch_summary_resume file prompt o cache now).2) in *.
  assert (Hin : TTLCache.contains c' t0 prompt = false).
  { unfold TTLCache.contains. rewrite Hfind. by apply Nat.ltb_ge. }
  split; [done|]. open_fetch_summary.
  rewrite (fetch_summary_start_miss _ _ _ _ _ _ Hin).
  by destruct (fetch_summary_resume file' prompt _ _ t1).
Qed.

End CacheClaims.

(** ** Invariants of the cache and kinds of results *)

Section KindFacts.

Variable format_sentence : json → result string.
Variable api_key : option string.

Implicit Types (file prompt : string) (cache : TTLCache.t) (now : time).

(** Both segments of [fetch_summary] keep the keys distinct, the cache
    within its size, and the size itself. *)
Lemma fetch_segments_ok file prompt o cache now now' :
  cache_ok cache →
  (cache_ok (fetch_summary_start api_key file prompt cache now now').2 ∧
   TTLCache.maxsize (fetch_summary_start api_key file prompt cache now now').2
     = TTLCache.maxsize cache) ∧
  (cache_ok (fetch_summary_resume format_sentence file prompt o cache now).2 ∧
   TTLCache.maxsize (fetch_summary_resume format_sentence file prompt o cache now).2
     = TTLCache.maxsize cache).
Proof.
  intros Hok. split.
  - destruct (fetch_summary_start_cases api_key file prompt cache now now')
      as (c' & Hsame & [(v & _ & _ & ->)|[(_ & _ & ->)|(_ & -> & ->)]]); simpl;
      [by apply same_items_ok..|done].
  - destruct (fetched format_sentence o) as [summary|] eqn:Hf.
    + rewrite (fetch_summary_resume_fetched _ _ _ _ _ _ _ Hf).
      pose proof (setitem_ok cache now prompt summary Hok) as Hset.
      by destruct (TTLCache.setitem cache now prompt summary).
    + by rewrite (fetch_summary_resume_failed _ _ _ _ _ _ Hf).
Qed.

Lemma fetched_produced o summary :
  fetched format_sentence o = Some summary → ∃ j, format_sentence j = Ok summary.
Proof.
  unfold fetched, parse_summary. destruct o as [r|e]; [|done].
  destruct (status_code r =? 200)%Z; [|done].
  destruct (raise_for_status r); [|done]. simpl.
  destruct (json_payload r) as [data|e]; [|done]. simpl.
  destruct (first_choice_text data) as [j|e]; [|done]. simpl.
  destruct (format_sentence j) eqn:Hj; [|done]. intros [= <-]. by exists j.
Qed.

Lemma setitem_links c now k v l :
  l ∈ TTLCache.links (TTLCache.setitem c now k v).2 →
  l ∈ TTLCache.links c ∨ l = TTLCache.Link k v (now + TTLCache.ttl c).
Proof.
  unfold TTLCache.setitem.
  set (live := TTLCache.links (TTLCache.expire c now)).
  assert (Hlive : live `sublist_of` TTLCache.links c) by apply sublist_filter.
  destruct (TTLCache.maxsize c <? 1)%nat; simpl.
  { intros Hin. left. by eapply elem_of_sublist. }
  destruct (TTLCache.find_link k live); simpl;
    intros [Hin| ->%list_elem_of_singleton]%elem_of_app; try (by right);
    left; (eapply elem_of_sublist; [|exact Hlive]);
    (eapply elem_of_sublist; [exact Hin|]).
  - apply remove_link_sublist.
  - apply evict_sublist.
Qed.

(** The second segment returns the fallback text or the summary that was
    fetched, and adds at most that summary to the values of the cache. *)
Lemma fetch_summary_resume_kind file prompt o cache now :
  (∀ l, l ∈ TTLCache.links cache → ∃ j, format_sentence j = Ok (TTLCache.value l)) →
  (∃ text, (fetch_summary_resume format_sentence file prompt o cache now).1 = Ok (file, text) ∧
           summary_kind format_sentence text) ∧
  (∀ l, l ∈ TTLCache.links (fetch_summary_resume format_sentence file prompt o cache now).2 →
        ∃ j, format_sentence j = Ok (TTLCache.value l)).
Proof.
  intros Hvals.
  destruct (fetched format_sentence o) as [summary|] eqn:Hf.
  - rewrite (fetch_summary_resume_fetched _ _ _ _ _ _ _ Hf).
    pose proof (fetched_produced o summary Hf) as Hj.
    pose proof (setitem_links cache now prompt summary) as Hset.
    destruct (TTLCache.setitem cache now prompt summary) as [[[]|e] c']; simpl in *.
    + split; [exists summary; split; [done|]; by right; right|].
      intros l [Hin| ->]%Hset; [by apply Hvals|done].
    + split; [exists fallback; split; [done|]; by left|].
      intros l [Hin| ->]%Hset; [by apply Hvals|done].
  - rewrite (fetch_summary_resume_failed _ _ _ _ _ _ Hf). simpl.
    split; [exists fallback; split; [done|]; by left|done].
Qed.

(** The first segment of a task in a batch returns a value of the cache,
    if it returns. *)
Lemma fetch_summary_start_kind file prompt cache now :
  (∀ l, l ∈ TTLCache.links cache → ∃ j, format_sentence j = Ok (TTLCache.value l)) →
  (∀ r, (fetch_summary_start api_key file prompt cache now now).1 = Returned r →
        ∃ text, r = Ok (file, text) ∧ summary_kind format_sentence text) ∧
  (∀ l, l ∈ TTLCache.links (fetch_summary_start api_key file prompt cache now now).2 →
        ∃ j, format_sentence j = Ok (TTLCache.value l)).
Proof.
  intros Hvals.
  destruct (TTLCache.contains cache now prompt) eqn:Hin.
  - destruct (fetch_summary_start_hit api_key file prompt cache now now Hin Hin)
      as (l & Hl & ->).
    simpl. split.
    + intros r [= <-]. exists (TTLCache.value l). split; [done|]. right; right.
      apply Hvals. by apply find_link_elem in Hl as [? _].
    + intros l' Hl'. apply Hvals.
      by rewrite (remove_link_perm prompt _ l Hl) in Hl'.
  - rewrite (fetch_summary_start_miss _ _ _ _ _ _ Hin). simpl. by split.
Qed.

End KindFacts.

Section KindClaims.

Variable format_sentence : json → result string.
Variable format : string → string → result string.
Variable api_key : option string.

#[local] Abbreviation fetch_summary_resume := (fetch_summary_resume format_sentence).
#[local] Abbreviation code_to_text := (code_to_text format_sentence format api_key).
#[local] Abbreviation produced :=
  (λ c : TTLCache.t, ∀ l, l ∈ TTLCache.links c →
                          ∃ j, format_sentence j = Ok (TTLCache.value l)).
#[local] Abbreviation kind_of_task :=
  (λ t : task, match t with
               | TNull _ text | TDone (Ok (_, text)) => summary_kind format_sentence text
               | _ => True
               end).

(** X12. Both segments of [fetch_summary] keep the invariants of the
    cache: its keys stay distinct and it never holds more items than its
    size, whatever the outcome of the post. *)
Theorem fetch_summary_keeps_cache_ok file prompt o cache now now' :
  cache_ok cache →
  cache_ok (fetch_summary_start api_key file prompt cache now now').2 ∧
  cache_ok (fetch_summary_resume file prompt o cache now).2.
Proof.
  intros Hok.
  destruct (fetch_segments_ok format_sentence api_key file prompt o cache now now' Hok)
    as [[? _] [? _]].
  done.
Qed.

(** A segment of a batch keeps the invariants of the cache, and the kinds
    of the texts. *)
Lemma run_segment_ok env client i t s m :
  cache_ok (rs_cache s) ∧ TTLCache.maxsize (rs_cache s) = m →
  cache_ok (rs_cache (run_segment format_sentence api_key env client i t s).2) ∧
  TTLCache.maxsize (rs_cache (run_segment format_sentence api_key env client i t s).2) = m.
Proof.
  intros [Hok <-].
  destruct t as [file summary|file prompt|file prompt|r]; simpl; try done.
  - unfold start_task.
    destruct (fetch_segments_ok format_sentence api_key file prompt
                (Fails KeyError) (rs_cache s)
                (clock env (rs_ticks s)) (clock env (rs_ticks s)) Hok) as [H _].
    by destruct (fetch_summary_start _ _ _ _ _ _) as [[r|req] c'].
  - unfold resume_task.
    destruct (fetch_segments_ok format_sentence api_key file prompt
                (reply env i (completion_request api_key prompt))
                (rs_cache s) (clock env (rs_ticks s)) (clock env (rs_ticks s)) Hok)
      as [_ H].
    by destruct (fetch_summary_resume file prompt _ _ _).
Qed.

(** X13. The cache of an invocation is bounded: at the end of
    [code_to_text] it holds at most 500 items, with distinct keys,
    however many files were fetched. *)
Theorem code_to_text_cache_bounded env sched ignore_files files prompt w :
  cache_ok (rs_cache (code_to_text env sched ignore_files files prompt w).2) ∧
  (length (TTLCache.links (rs_cache (code_to_text env sched ignore_files files prompt w).2))
   ≤ 500)%nat.
Proof.
  assert (Hinit : cache_ok get_cache ∧ TTLCache.maxsize get_cache = 500).
  { split; [|done]. split; [constructor|]. simpl. lia. }
  assert (H : cache_ok (rs_cache (code_to_text env sched ignore_files files prompt w).2) ∧
              TTLCache.maxsize
                (rs_cache (code_to_text env sched ignore_files files prompt w).2) = 500).
  { open_code_to_text. open_code_to_text_from.
    destruct (create_tasks format ignore_files files prompt) as [tasks|e]; [|done].
    destruct (gather_inv format_sentence api_key env (next_client w)
                (λ _ _, True)
                (λ _ c, cache_ok c ∧ TTLCache.maxsize c = 500))
      with (sched := sched)
           (s := RunState (get_http_client w).2 get_cache tasks 0)
      as (_ & _ & _ & _ & H); [| |done].
    - intros i t s _ Hc. split; [done|]. by apply run_segment_ok.
    - done. }
  destruct H as [Hok Hm]. split; [done|]. destruct Hok as [_ Hlen]. by rewrite Hm in Hlen.
Qed.

(** X14. Of a response with status 200 only the member [text] of the
    first choice is read: the summary is [format_sentence] of that text,
    whatever the other choices and the other members are, and it is what
    [fetch_summary] returns. *)
Theorem only_first_choice_is_read file prompt r fields choice rest t cache now :
  status_code r = 200%Z →
  json_payload r = Ok (JObj fields) →
  assoc "choices" fields = Some (JArr (JObj choice :: rest)) →
  assoc "text" choice = Some t →
  parse_summary format_sentence r = format_sentence t ∧
  (∀ summary, format_sentence t = Ok summary →
              (0 < TTLCache.maxsize cache)%nat →
              (fetch_summary_resume file prompt (Responds r) cache now).1
                = Ok (file, summary)).
Proof.
  intros Hst Hdata Hch Ht.
  assert (Hparse : parse_summary format_sentence r = format_sentence t).
  { unfold parse_summary, raise_for_status. rewrite Hst, Hdata. simpl.
    unfold first_choice_text. simpl. rewrite Hch. simpl. by rewrite Ht. }
  split; [done|]. intros summary Hs Hm.
  assert (Hf : fetched format_sentence (Responds r) = Some summary).
  { unfold fetched. by rewrite Hst, Hparse, Hs. }
  destruct (setitem_stores cache now prompt summary Hm) as (kept & _ & Hset).
  by rewrite (fetch_summary_resume_fetched _ _ _ _ _ _ _ Hf), Hset.
Qed.

Lemma run_segment_kind env client i t s :
  kind_of_task t → produced (rs_cache s) →
  kind_of_task (run_segment format_sentence api_key env client i t s).1 ∧
  produced (rs_cache (run_segment format_sentence api_key env client i t s).2).
Proof.
  intros Ht Hc.
  destruct t as [file summary|file prompt|file prompt|r]; simpl; try done.
  - unfold start_task.
    destruct (fetch_summary_start_kind format_sentence api_key file prompt
                (rs_cache s) (clock env (rs_ticks s)) Hc) as [Hr Hc'].
    destruct (fetch_summary_start _ _ _ _ _ _) as [[r|req] c']; simpl in *; [|done].
    split; [|done]. by destruct (Hr r eq_refl) as (text & -> & ?).
  - unfold resume_task.
    destruct (fetch_summary_resume_kind format_sentence file prompt
                (reply env i (completion_request api_key prompt))
                (rs_cache s) (clock env (rs_ticks s)) Hc) as [(text & Hr & ?) Hc'].
    destruct (fetch_summary_resume file prompt _ _ _) as [r c']; simpl in *.
    by subst r.
Qed.

(** X15. Every text in the result of [code_to_text] is of one of three
    kinds: the fallback text, the placeholder for a prompt over the
    budget with its number of tokens, or a summary that [format_sentence]
    returned. *)
Theorem result_texts_are_of_three_kinds env sched ignore_files files prompt w results :
  (code_to_text env sched ignore_files files prompt w).1 = Ok results →
  Forall (λ pt : string * string, summary_kind format_sentence pt.2) results.
Proof.
  open_code_to_text. open_code_to_text_from.
  destruct (create_tasks format ignore_files files prompt) as [tasks|e] eqn:Hct; [|done].
  destruct (gather_inv format_sentence api_key env (next_client w)
              (λ _ t, kind_of_task t) (λ _ c, produced c))
    with (sched := sched) (s := RunState (get_http_client w).2 get_cache tasks 0)
    as (rs & Hg & _ & Hrs & _).
  - intros i t s. apply run_segment_kind.
  - split; [|by intros l Hl; apply elem_of_nil in Hl].
    simpl. intros j t Hj.
    apply (create_tasks_spec format) in Hct.
    destruct (Forall2_lookup_r _ _ _ _ _ Hct Hj) as ([path contents] & _ & pc & _ & ->).
    unfold make_task. simpl.
    destruct (Nat.ltb_spec MAX_TOKENS (length (split pc))); [|done].
    right; left. eauto.
  - intros Hres.
    assert (Hok : mapM id rs = Ok results) by (rewrite <- Hg; exact Hres).
    apply mapM_id_Ok in Hok as ->. apply Forall_forall.
    intros [path text] [j Hj]%list_elem_of_lookup_1.
    apply (Hrs j (Ok (path, text))). by rewrite list_lookup_fmap, Hj.
Qed.

End KindClaims.

(** X10 and X11 at the cache of [get_cache] and a summary fetched at time
    7: it is served by a lookup at times 100 and 101, and gone at time
    607. *)
Lemma fetched_summary_is_served_witness :
  (fetch_summary format_sentence_spec ex_key "src/b.py" "Summarize: print(1)"
     (λ _, Fails (TransportError "unreachable")) id
     (fetch_summary_resume format_sentence_spec "src/a.py" "Summarize: print(1)"
        (Responds (ex_response 200 ex_payload)) get_cache 7).2 100 101 102).1.1
    = Ok ("src/b.py", "It prints.") ∧
  (fetch_summary format_sentence_spec ex_key "src/b.py" "Summarize: print(1)"
     (λ _, Fails (TransportError "unreachable")) id
     (fetch_summary_resume format_sentence_spec "src/a.py" "Summarize: print(1)"
        (Responds (ex_response 200 ex_payload)) get_cache 7).2 100 101 102).2 = [].
Proof.
  apply (fetched_summary_is_served format_sentence_spec ex_key
           "src/a.py" "src/b.py" "Summarize: print(1)"
           (Responds (ex_response 200 ex_payload)) get_cache 7 "It prints.").
  - constructor.
  - simpl. lia.
  - reflexivity.
  - simpl. lia.
  - simpl. lia.
Defined.

Lemma fetched_summary_expires_witness :
  TTLCache.contains
    (fetch_summary_resume format_sentence_spec "src/a.py" "Summarize: print(1)"
       (Responds (ex_response 200 ex_payload)) get_cache 7).2 607
    "Summarize: print(1)" = false ∧
  (fetch_summary format_sentence_spec ex_key "src/b.py" "Summarize: print(1)"
     (λ _, Fails (TransportError "timeout")) id
     (fetch_summary_resume format_sentence_spec "src/a.py" "Summarize: print(1)"
        (Responds (ex_response 200 ex_payload)) get_cache 7).2 607 607 608).2
    = [completion_request ex_key "Summarize: print(1)"].
Proof.
  apply (fetched_summary_expires format_sentence_spec ex_key
           "src/a.py" "src/b.py" "Summarize: print(1)"
           (Responds (ex_response 200 ex_payload)) get_cache 7 "It prints.").
  - constructor.
  - simpl. lia.
  - reflexivity.
  - simpl. lia.
Defined.

(** X12 at the cache that holds [PROMPT_X] and [PROMPT_Y]. *)
Lemma fetch_summary_keeps_cache_ok_witness :
  cache_ok ex_cache ∧
  cache_ok (fetch_summary_start ex_key "src/a.py" "PROMPT_X" ex_cache 5 6).2 ∧
  cache_ok (fetch_summary_resume format_sentence_spec "src/a.py" "PROMPT_X"
              (Responds (ex_response 200 ex_payload)) ex_cache 5).2.
Proof.
  assert (H : cache_ok ex_cache).
  { split; [|simpl; lia]. unfold cache_wf. apply (bool_decide_unpack _).
    vm_compute. exact I. }
  split; [exact H|].
  exact (fetch_summary_keeps_cache_ok format_sentence_spec ex_key "src/a.py" "PROMPT_X"
           (Responds (ex_response 200 ex_payload)) ex_cache 5 6 H).
Defined.

(** X14 at a payload with two choices: the second is not read. *)
Lemma only_first_choice_is_read_witness :
  parse_summary format_sentence_spec (ex_response 200 ex_payload_two)
    = format_sentence_spec (JStr " First. ") ∧
  (∀ summary, format_sentence_spec (JStr " First. ") = Ok summary →
              (0 < TTLCache.maxsize get_cache)%nat →
              (fetch_summary_resume format_sentence_spec "src/a.py" "Summarize: print(1)"
                 (Responds (ex_response 200 ex_payload_two)) get_cache 7).1
                = Ok ("src/a.py", summary)).
Proof.
  apply (only_first_choice_is_read format_sentence_spec "src/a.py" "Summarize: print(1)"
           (ex_response 200 ex_payload_two)
           [("id", JStr "cmpl-1");
            ("choices", JArr [JObj [("index", JNumber "0"); ("text", JStr " First. ")];
                              JObj [("index", JNumber "1"); ("text", JStr " Second. ")]])]
           [("index", JNumber "0"); ("text", JStr " First. ")]
           [JObj [("index", JNumber "1"); ("text", JStr " Second. ")]]
           (JStr " First. ") get_cache 7); reflexivity.
Defined.

(** X15 at the first run of the examples. *)
Lemma result_texts_are_of_three_kinds_witness :
  ex_first_run.1 = Ok [("src/a.py", "It prints."); ("src/b.py", "It prints.")] ∧
  Forall (λ pt : string * string, summary_kind format_sentence_spec pt.2)
    [("src/a.py", "It prints."); ("src/b.py", "It prints.")].
Proof.
  assert (H : ex_first_run.1 = Ok [("src/a.py", "It prints."); ("src/b.py", "It prints.")])
    by (vm_compute; reflexivity).
  split; [exact H|].
  exact (result_texts_are_of_three_kinds format_sentence_spec str_format ex_key
           ex_env ex_sched ex_ignore ex_files ex_template ex_world _ H).
Defined.

(** ** The lookup of [fetch_summary], and what it lets out *)

Section LookupClaims.

Variable format_sentence : json → result string.
Variable format : string → string → result string.
Variable api_key : option string.

#[local] Abbreviation fetch_summary := (fetch_summary format_sentence api_key).
#[local] Abbreviation fetch_summary_try := (fetch_summary_try format_sentence).
#[local] Abbreviation code_to_text := (code_to_text format_sentence format api_key).

(** X16. When the rendered prompt is in the cache at the test
    [prompt in cache] and its entry is still unexpired when the read
    [cache[prompt]] reads the timer, [fetch_summary] returns the path with
    the summary stored under the prompt at once: the first segment of the
    coroutine returns without suspending and no request is sent, whatever
    the transport would answer. The stored item only becomes the most
    recently used one. *)
Theorem cache_hit_returns_cached file prompt transport others cache t0 t0' t1 :
  TTLCache.contains cache t0 prompt = true →
  TTLCache.contains cache t0' prompt = true →
  ∃ l, TTLCache.find_link prompt (TTLCache.links cache) = Some l ∧
    (fetch_summary_start api_key file prompt cache t0 t0').1 =
      Returned (Ok (file, TTLCache.value l)) ∧
    fetch_summary file prompt transport others cache t0 t0' t1 =
      (Ok (file, TTLCache.value l),
       TTLCache.with_links cache
         (TTLCache.remove_link prompt (TTLCache.links cache) ++ [l]),
       []).
Proof.
  intros Hin Hin'.
  destruct (fetch_summary_start_hit api_key file prompt cache t0 t0' Hin Hin')
    as (l & Hl & Hst).
  exists l. split; [done|]. split; [by rewrite Hst|].
  open_fetch_summary. by rewrite Hst.
Qed.

(** X17. [fetch_summary] raises in one case only: the entry of the prompt
    is unexpired at the test [prompt in cache] and expired at the read
    [cache[prompt]]. What is raised is then [KeyError], and no request has
    been sent. In every other case [fetch_summary] returns a pair with the
    path it was given. *)
Theorem fetch_summary_raises_only_on_expiry file prompt transport others cache t0 t0' t1 :
  match (fetch_summary file prompt transport others cache t0 t0' t1).1.1 with
  | Ok (file', _) =>
      file' = file ∧
      (TTLCache.contains cache t0 prompt = false ∨
       TTLCache.contains cache t0' prompt = true)
  | Raise e =>
      e = KeyError ∧
      TTLCache.contains cache t0 prompt = true ∧
      TTLCache.contains cache t0' prompt = false ∧
      (fetch_summary file prompt transport others cache t0 t0' t1).2 = []
  end.
Proof.
  open_fetch_summary.
  destruct (fetch_summary_start_cases api_key file prompt cache t0 t0')
    as (c' & _ & [(v & Hin & Hin' & ->)|[(Hin & Hin' & ->)|(Hin & -> & ->)]]).
  - simpl. split; [done|]. by right.
  - done.
  - destruct (fetch_summary_resume_returns format_sentence file prompt
                (transport (completion_request api_key prompt)) (others cache) t1)
      as (text & c'' & ->).
    simpl. split; [done|]. by left.
Qed.

(** X18. After a lookup that misses, [fetch_summary] never raises: it
    returns a pair with the path it was given. The text is the fallback
    text whenever the body of the [try] raised, and whenever no summary
    was fetched (a status other than 200, a post that failed by timeout or
    connection error, a payload from which no summary is read); in that
    case the shared cache is left as the other tasks made it, and the one
    request of the call has been sent. *)
Theorem failed_fetch_gives_fallback file prompt transport others cache t0 t0' t1 :
  TTLCache.contains cache t0 prompt = false →
  (∃ text, (fetch_summary file prompt transport others cache t0 t0' t1).1.1 =
           Ok (file, text)) ∧
  (∀ e c', fetch_summary_try file prompt
             (transport (completion_request api_key prompt)) (others cache) t1 =
             (Raise e, c') →
     (fetch_summary file prompt transport others cache t0 t0' t1).1.1 =
       Ok (file, fallback)) ∧
  (fetched format_sentence (transport (completion_request api_key prompt)) = None →
   fetch_summary file prompt transport others cache t0 t0' t1 =
     (Ok (file, fallback), others cache, [completion_request api_key prompt])).
Proof.
  intros Hmiss. open_fetch_summary.
  rewrite (fetch_summary_start_miss _ _ _ _ _ _ Hmiss).
  split; [|split].
  - destruct (fetch_summary_resume_returns format_sentence file prompt
                (transport (completion_request api_key prompt)) (others cache) t1)
      as (text & c'' & ->). by exists text.
  - intros e c' Htry. open_fetch_summary_resume. by rewrite Htry.
  - intros Hf. by rewrite (fetch_summary_resume_failed _ _ _ _ _ _ Hf).
Qed.

(** X19. A batch is not aborted by a fetch (the lookup of each task being
    given the one reading of its segment): when [code_to_text] raises, it
    is rendering a prompt that raised the exception. No request has been
    sent then, and the cache of the invocation is still empty. *)
Theorem batch_raises_only_format_errors env sched ignore_files files template w e :
  (code_to_text env sched ignore_files files template w).1 = Raise e →
  create_tasks format ignore_files files template = Raise e ∧
  sent (rs_world (code_to_text env sched ignore_files files template w).2) = sent w ∧
  rs_cache (code_to_text env sched ignore_files files template w).2 = get_cache.
Proof.
  pose proof (code_to_text_from_result format_sentence format api_key env sched
                (next_client w) get_cache ignore_files files template
                (get_http_client w).2) as H.
  intros Hr.
  assert (Hct : create_tasks format ignore_files files template = Raise e).
  { open_code_to_text. by rewrite Hr in H. }
  split; [done|]. open_code_to_text. open_code_to_text_from. by rewrite Hct.
Qed.

End LookupClaims.

(** X16 at the cache that holds [PROMPT_X], read at times 5 and 6: the
    transport is never asked. *)
Lemma cache_hit_returns_cached_witness :
  TTLCache.contains ex_cache 5 "PROMPT_X" = true ∧
  TTLCache.contains ex_cache 6 "PROMPT_X" = true ∧
  ∃ l, TTLCache.find_link "PROMPT_X" (TTLCache.links ex_cache) = Some l ∧
    (fetch_summary_start ex_key "src/a.py" "PROMPT_X" ex_cache 5 6).1 =
      Returned (Ok ("src/a.py", TTLCache.value l)) ∧
    fetch_summary format_sentence_spec ex_key "src/a.py" "PROMPT_X"
      (λ _, Fails (TransportError "unreachable")) id ex_cache 5 6 7 =
      (Ok ("src/a.py", TTLCache.value l),
       TTLCache.with_links ex_cache
         (TTLCache.remove_link "PROMPT_X" (TTLCache.links ex_cache) ++ [l]),
       []).
Proof.
  split; [reflexivity|]. split; [reflexivity|].
  apply (cache_hit_returns_cached format_sentence_spec ex_key); reflexivity.
Defined.

(** The summary returned at that input is the one stored. *)
Example cache_hit_value :
  (fetch_summary format_sentence_spec ex_key "src/a.py" "PROMPT_X"
     (λ _, Fails (TransportError "unreachable")) id ex_cache 5 6 7).1.1 =
  Ok ("src/a.py", "cached summary").
Proof. reflexivity. Qed.

(** X18 at the cache of [get_cache] and a post that times out. *)
Lemma failed_fetch_gives_fallback_witness :
  TTLCache.contains get_cache 0 "Summarize: print(1)" = false ∧
  fetch_summary format_sentence_spec ex_key "src/a.py" "Summarize: print(1)"
    (λ _, Fails (TransportError "timeout")) id get_cache 0 0 1 =
    (Ok ("src/a.py", fallback), get_cache,
     [completion_request ex_key "Summarize: print(1)"]).
Proof.
  assert (H : TTLCache.contains get_cache 0 "Summarize: print(1)" = false)
    by reflexivity.
  split; [exact H|].
  apply (failed_fetch_gives_fallback format_sentence_spec ex_key
           "src/a.py" "Summarize: print(1)"
           (λ _, Fails (TransportError "timeout")) id get_cache 0 0 1 H).
  reflexivity.
Defined.

(** X19 at the template with an unmatched brace. *)
Lemma batch_raises_only_format_errors_witness :
  ex_failed_run.1 = Raise ValueError ∧
  create_tasks str_format ex_ignore ex_files ex_bad_template = Raise ValueError ∧
  sent (rs_world ex_failed_run.2) = sent ex_world ∧
  rs_cache ex_failed_run.2 = get_cache.
Proof.
  assert (H : ex_failed_run.1 = Raise ValueError) by (vm_compute; reflexivity).
  split; [exact H|].
  exact (batch_raises_only_format_errors format_sentence_spec str_format ex_key
           ex_env ex_sched ex_ignore ex_files ex_bad_template ex_world _ H).
Defined.
